(** * DreamNest API: quotation calculator and request handlers

    A shallow embedding of [main.py] and [schemas.py]: the quotation
    calculator, the serializer of stored records and the handlers of the
    lead, follow-up and quotation endpoints, over a model of the document
    store they talk to. *)

From Stdlib Require Import ZArith NArith QArith Qround Qabs Floats Uint63 Ascii String Lia Lqa.
From stdpp Require Import base strings list gmap.

Local Open Scope Z_scope.

(** ** Python floats

    [compute_quote] uses [+], [*], [/] and [round(_, 2)]; the schema adds
    the [ge=0] check, and the JSON encoder of a response refuses a float
    that is not finite.  The handlers are written once over this interface
    and run on two carriers: binary64, which is what CPython computes, and
    the exact rationals, which is the arithmetic the formulas denote. *)

Class PyFloat (F : Type) := {
  fadd : F -> F -> F;
  fmul : F -> F -> F;
  fdiv : F -> F -> F;
  fge0 : F -> bool;
  flit : Z -> F;
  round2 : F -> F;
  ffinite : F -> bool;
}.

(** Round half to even of the rational [n / d]. *)
Definition round_half_even (n : Z) (d : positive) : Z :=
  let q := n / Zpos d in
  let r := n mod Zpos d in
  match (2 * r ?= Zpos d) with
  | Lt => q
  | Gt => q + 1
  | Eq => if Z.even q then q else q + 1
  end.

Module Binary64.

(** The number of hundredths nearest to [m * 2^e], ties to even. *)
Definition hundredths (m : positive) (e : Z) : Z :=
  if 0 <=? e then 100 * Zpos m * 2 ^ e
  else round_half_even (100 * Zpos m) (Z.to_pos (2 ^ (- e))).

(** [round(x, 2)] of CPython on a double: the exact binary value is rounded
    half-even to two decimals and the decimal numeral is read back as the
    nearest double; infinities and NaN are returned as they are.  From
    [2^46] on, a double is its own nearest two-decimal neighbour.  Below,
    the count of hundredths is under [2^53], converts exactly, and the
    correctly rounded division by [100.0] is the nearest double. *)
Definition round_2 (x : float) : float :=
  match Prim2SF x with
  | S754_finite s m e =>
      if (PrimFloat.abs x <? 70368744177664)%float then
        let r := PrimFloat.div
                   (PrimFloat.of_uint63 (Uint63.of_Z (hundredths m e))) 100 in
        if s then PrimFloat.opp r else r
      else x
  | _ => x
  end.

Definition of_Z (z : Z) : float :=
  match z with
  | Zneg p => PrimFloat.opp (PrimFloat.of_uint63 (Uint63.of_Z (Zpos p)))
  | _ => PrimFloat.of_uint63 (Uint63.of_Z z)
  end.

#[global] Instance ops : PyFloat float := {|
  fadd := PrimFloat.add;
  fmul := PrimFloat.mul;
  fdiv := PrimFloat.div;
  fge0 := fun x => (0 <=? x)%float;
  flit := of_Z;
  round2 := round_2;
  ffinite := PrimFloat.is_finite;
|}.

End Binary64.

Module Exact.

Definition round_2 (x : Q) : Q :=
  Qmake (round_half_even (100 * Qnum x) (Qden x)) 100.

#[global] Instance ops : PyFloat Q := {|
  fadd := Qplus;
  fmul := Qmult;
  fdiv := Qdiv;
  fge0 := fun x => Qle_bool 0 x;
  flit := inject_Z;
  round2 := round_2;
  ffinite := fun _ => true;
|}.

End Exact.

(** ** The quotation calculator *)

Section Calculator.
Context {F : Type} `{PyFloat F}.

(** [schemas.QuotationInputs] *)
Record QuotationInputs := {
  area : F;
  rate_per_sqft : F;
  material_cost : F;
  gst_percent : F;
  markup_percent : F;
}.

(** The [Field(..., ge=0)] constraints. *)
Definition QuotationInputs_valid (i : QuotationInputs) : bool :=
  fge0 (area i) && fge0 (rate_per_sqft i) && fge0 (material_cost i)
  && fge0 (gst_percent i) && fge0 (markup_percent i).

(** The dict [compute_quote] returns. *)
Record Quote := {
  q_subtotal : F;
  q_gst : F;
  q_markup : F;
  q_total : F;
}.

(** The local variables of [compute_quote], in order. *)
Definition subtotal (i : QuotationInputs) : F :=
  fadd (fmul (area i) (rate_per_sqft i)) (material_cost i).

Definition gst (i : QuotationInputs) : F :=
  fmul (subtotal i) (fdiv (gst_percent i) (flit 100)).

Definition total_with_gst (i : QuotationInputs) : F :=
  fadd (subtotal i) (gst i).

Definition markup (i : QuotationInputs) : F :=
  fmul (total_with_gst i) (fdiv (markup_percent i) (flit 100)).

Definition grand_total (i : QuotationInputs) : F :=
  round2 (fadd (total_with_gst i) (markup i)).

Definition compute_quote (i : QuotationInputs) : Quote :=
  {| q_subtotal := round2 (subtotal i);
     q_gst := round2 (gst i);
     q_markup := round2 (markup i);
     q_total := grand_total i |}.

End Calculator.

Arguments QuotationInputs F : clear implicits.
Arguments Quote F : clear implicits.

(** ** Identifiers

    A stored [bson.ObjectId] is a 12-byte value, kept here as the 96-bit
    number its hexadecimal rendering denotes; [str] renders 24 lower-case
    digits.  [ObjectId.is_valid] accepts a string of 24 characters that
    [bytes.fromhex] can read. *)

Definition ObjectId := N.

Definition hex_digit_value (c : ascii) : option N :=
  let n := N_of_ascii c in
  if ((48 <=? n) && (n <=? 57))%N then Some (n - 48)%N
  else if ((97 <=? n) && (n <=? 102))%N then Some (n - 87)%N
  else if ((65 <=? n) && (n <=? 70))%N then Some (n - 55)%N
  else None.

Fixpoint hex_decode (acc : N) (s : string) : option N :=
  match s with
  | EmptyString => Some acc
  | String c s' =>
      match hex_digit_value c with
      | Some v => hex_decode (16 * acc + v)%N s'
      | None => None
      end
  end.

(** ASCII whitespace, as [bytes.fromhex] skips it. *)
Definition is_space (c : ascii) : bool :=
  let n := N_of_ascii c in
  (n =? 32)%N || ((9 <=? n) && (n <=? 13))%N.

(** [bytes.fromhex]: pairs of hexadecimal digits, with any run of
    whitespace before a pair or at the end; [None] is its [ValueError]. *)
Fixpoint fromhex (s : string) : option (list N) :=
  match s with
  | EmptyString => Some []
  | String c s' =>
      if is_space c then fromhex s'
      else
        match hex_digit_value c, s' with
        | Some top, String c' s'' =>
            match hex_digit_value c' with
            | Some bot => cons (16 * top + bot)%N <$> fromhex s''
            | None => None
            end
        | _, _ => None
        end
  end.

Definition is_valid (oid : string) : bool :=
  Nat.eqb (String.length oid) 24
  && match fromhex oid with Some _ => true | None => false end.

(** The 12-byte identifier [ObjectId(oid)] is.  [None] stands for the
    [InvalidId] exception on a string [is_valid] refuses; on a string it
    accepts, [None] says that whitespace took the place of digits and
    [ObjectId(oid)] has fewer than 12 bytes. *)
Definition ObjectId_new (oid : string) : option ObjectId :=
  if is_valid oid then hex_decode 0 oid else None.

Definition hex_char (n : N) : ascii :=
  match String.get (N.to_nat n) "0123456789abcdef" with
  | Some c => c
  | None => "0"%char
  end.

Fixpoint hex_encode (digits : nat) (n : N) (acc : string) : string :=
  match digits with
  | O => acc
  | S k => hex_encode k (n / 16)%N (String (hex_char (n mod 16)%N) acc)
  end.

Definition oid_str (o : ObjectId) : string := hex_encode 24 o "".

(** ** Documents

    A stored document and a JSON body are Python dicts: finite maps from
    field names to values. *)

#[warnings="-register-all"]
Inductive Value (F : Type) :=
| VNone
| VBool (b : bool)
| VStr (s : string)
| VFloat (x : F)
| VOid (o : ObjectId)
| VDate (t : N)
| VList (l : list (Value F))
| VDict (d : gmap string (Value F)).

Arguments VNone {F}.
Arguments VBool {F} b.
Arguments VStr {F} s.
Arguments VFloat {F} x.
Arguments VOid {F} o.
Arguments VDate {F} t.
Arguments VList {F} l.
Arguments VDict {F} d.

Abbreviation Doc F := (gmap string (Value F)).


Definition is_oid {F} (v : Value F) : bool :=
  match v with VOid _ => true | _ => false end.

Definition opt_str {F} (o : option string) : Value F :=
  match o with Some s => VStr s | None => VNone end.

(** Python truthiness of a dict: [not doc] holds for the empty dict. *)
Definition dict_empty {F} (d : Doc F) : bool := Nat.eqb (size d) 0.

(** ** HTTP outcome of a handler

    A handler returns a body, raises [HTTPException], or lets another
    exception escape, which FastAPI answers with status 500.  A returned
    body is then encoded as JSON: the encoder has no rendering for an
    [ObjectId] and refuses a float that is not finite, and its exception is
    answered with status 500 as well. *)

Inductive Response (F : Type) :=
| Ok (body : Value F)
| HTTPException (status_code : nat) (detail : string)
| Unhandled (exc : string).

Arguments Ok {F} body.
Arguments HTTPException {F} status_code detail.
Arguments Unhandled {F} exc.

Fixpoint encodable {F} `{PyFloat F} (v : Value F) : bool :=
  match v with
  | VOid _ => false
  | VFloat x => ffinite x
  | VList l => forallb encodable l
  | VDict d => map_fold (fun _ x ok => encodable x && ok) true d
  | _ => true
  end.

Definition status_of {F} `{PyFloat F} (r : Response F) : nat :=
  match r with
  | Ok body => if encodable body then 200 else 500
  | HTTPException c _ => c
  | Unhandled _ => 500
  end.


(** ** The document store (pymongo)

    The store is taken to be connected.  A collection keeps its documents
    in insertion order.  The store also carries the two sources of fresh
    data an insert draws from: the identifier generator and the clock. *)

Record Db (F : Type) := {
  colls : gmap string (list (Doc F));
  next_oid : ObjectId;
  clock : N;
}.

Arguments colls {F} d.
Arguments next_oid {F} d.
Arguments clock {F} d.

(** The filter documents the handlers build. *)
Inductive Query :=
| QAll                                  (* {} *)
| QId (o : ObjectId)                    (* {"_id": o} *)
| QField (k : string) (s : string)      (* {k: s}, s a string *)
| QOr (q1 q2 : Query).                  (* {"$or": [q1, q2]} *)

Section Store.
Context {F : Type}.

Definition is_str (s : string) (v : Value F) : bool :=
  match v with VStr s' => String.eqb s s' | _ => false end.

(** Equality match; on an array field, a match of any element. *)
Fixpoint matches (q : Query) (d : Doc F) : bool :=
  match q with
  | QAll => true
  | QId o => match d !! "_id" with Some (VOid o') => N.eqb o o' | _ => false end
  | QField k s =>
      match d !! k with
      | Some (VStr s') => String.eqb s s'
      | Some (VList l) => existsb (is_str s) l
      | _ => false
      end
  | QOr q1 q2 => matches q1 d || matches q2 d
  end.

Definition coll (s : Db F) (name : string) : list (Doc F) :=
  default [] (colls s !! name).

Definition set_coll (s : Db F) (name : string) (c : list (Doc F)) : Db F :=
  {| colls := <[name := c]> (colls s); next_oid := next_oid s; clock := clock s |}.

Definition find (s : Db F) (name : string) (q : Query) : list (Doc F) :=
  List.filter (matches q) (coll s name).

Definition find_one (s : Db F) (name : string) (q : Query) : option (Doc F) :=
  List.find (matches q) (coll s name).

(** [cursor.sort("created_at", -1)]: descending, documents without a
    creation time last; a stable insertion sort. *)
Definition created_at (d : Doc F) : option N :=
  match d !! "created_at" with Some (VDate t) => Some t | _ => None end.

Definition newer_or_same (a b : Doc F) : bool :=
  match created_at a, created_at b with
  | Some x, Some y => (y <=? x)%N
  | Some _, None => true
  | None, Some _ => false
  | None, None => true
  end.

Fixpoint insert_desc (d : Doc F) (l : list (Doc F)) : list (Doc F) :=
  match l with
  | [] => [d]
  | x :: l' => if newer_or_same d x then d :: l else x :: insert_desc d l'
  end.

Definition sort_created_at_desc (l : list (Doc F)) : list (Doc F) :=
  fold_right insert_desc [] l.

(** [update_one]: the first document matching [q] is rewritten by [f];
    [None] is a write error raised by the server. *)
Fixpoint update_first (q : Query) (f : Doc F -> option (Doc F)) (c : list (Doc F))
  : option (list (Doc F) * nat) :=
  match c with
  | [] => Some ([], O)
  | d :: c' =>
      if matches q d then
        match f d with
        | Some d' => Some (d' :: c', 1%nat)
        | None => None
        end
      else
        match update_first q f c' with
        | Some (c'', n) => Some (d :: c'', n)
        | None => None
        end
  end.

(** Returns the store and [matched_count]; nothing is written when no
    document matches. *)
Definition update_one (s : Db F) (name : string) (q : Query)
    (f : Doc F -> option (Doc F)) : option (Db F * nat) :=
  match update_first q f (coll s name) with
  | Some (_, O) => Some (s, O)
  | Some (c', n) => Some (set_coll s name c', n)
  | None => None
  end.

(** [{"$set": fields}] *)
Definition op_set (fields : Doc F) (d : Doc F) : option (Doc F) :=
  Some (fields ∪ d).

(** [{"$push": {k: v}}]: appends to the array, creates it when the field is
    missing, and is a write error on a field that is not an array. *)
Definition op_push (k : string) (v : Value F) (d : Doc F) : option (Doc F) :=
  match d !! k with
  | None => Some (<[k := VList [v]]> d)
  | Some (VList l) => Some (<[k := VList (l ++ [v])]> d)
  | Some _ => None
  end.

(** [insert_one]: the document is stored under a generated [_id]; the
    documents the handlers hand over carry none of their own. *)
Definition insert_one (s : Db F) (name : string) (d : Doc F) : Db F * ObjectId :=
  let oid := next_oid s in
  ({| colls := <[name := coll s name ++ [<["_id" := VOid oid]> d]]> (colls s);
      next_oid := (oid + 1)%N;
      clock := clock s |}, oid).

(** Modelled from the spec: [database.create_document] is not among the
    sources.  "Insert one validated record into a named collection, return
    its generated identifier", the identifier "always rendered as its string
    form"; the record gets the creation time the read operations sort by. *)
Definition create_document (s : Db F) (collection_name : string) (data : Doc F)
  : Db F * string :=
  let stamped := <["created_at" := VDate (clock s)]> data in
  let '(s1, oid) := insert_one s collection_name stamped in
  ({| colls := colls s1; next_oid := next_oid s1; clock := (clock s + 1)%N |},
   oid_str oid).


End Store.


(** ** Schemas ([schemas.py] and the request models of [main.py])

    A value of a schema type is a body that passed pydantic's parsing; the
    [Field] constraints are the [valid] predicates.  [model_dump] is the
    dict pydantic hands to the store. *)

Definition strs {F} (l : list string) : Value F := VList (VStr <$> l).

Definition opt_float {F} (o : option F) : Value F :=
  match o with Some x => VFloat x | None => VNone end.

Module Community.
Record t (F : Type) := {
  name : string;
  city : string;
  starting_price : option F;
  image_url : option string;
  amenities_images : list string;
}.
Arguments name {F} _.
Arguments city {F} _.
Arguments starting_price {F} _.
Arguments image_url {F} _.
Arguments amenities_images {F} _.
Definition model_dump {F} (p : t F) : Doc F :=
  list_to_map
    [ ("name", VStr (name p)); ("city", VStr (city p));
      ("starting_price", opt_float (starting_price p));
      ("image_url", opt_str (image_url p));
      ("amenities_images", strs (amenities_images p)) ].
End Community.

Module Tower.
Record t := {
  name : string;
  community_id : string;
  images : list string;
  pdfs : list string;
}.
Definition model_dump {F} (p : t) : Doc F :=
  list_to_map
    [ ("name", VStr (name p)); ("community_id", VStr (community_id p));
      ("images", strs (images p)); ("pdfs", strs (pdfs p)) ].
End Tower.

Module Flat.
Record t := {
  number : string;
  tower_id : string;
  bhk_type : string;
  status : string;
  images : list string;
}.
Definition model_dump {F} (p : t) : Doc F :=
  list_to_map
    [ ("number", VStr (number p)); ("tower_id", VStr (tower_id p));
      ("bhk_type", VStr (bhk_type p)); ("status", VStr (status p));
      ("images", strs (images p)) ].
End Flat.

Module FloorPlan.
Record t (F : Type) := {
  bhk_type : string;
  image_url : option string;
  pdf_url : option string;
  carpet_area : option F;
  uds_area : option F;
}.
Arguments bhk_type {F} _.
Arguments image_url {F} _.
Arguments pdf_url {F} _.
Arguments carpet_area {F} _.
Arguments uds_area {F} _.
Definition model_dump {F} (p : t F) : Doc F :=
  list_to_map
    [ ("bhk_type", VStr (bhk_type p)); ("image_url", opt_str (image_url p));
      ("pdf_url", opt_str (pdf_url p));
      ("carpet_area", opt_float (carpet_area p));
      ("uds_area", opt_float (uds_area p)) ].
End FloorPlan.

Module Lead.
Record t := {
  name : string;
  phone : string;
  email : option string;
  assigned_agent_id : option string;
  assigned_manager_id : option string;
  requirement_type : option string;
  source : option string;
  status : string;
  follow_up_ids : list string;
}.
Definition model_dump {F} (p : t) : Doc F :=
  list_to_map
    [ ("name", VStr (name p)); ("phone", VStr (phone p));
      ("email", opt_str (email p));
      ("assigned_agent_id", opt_str (assigned_agent_id p));
      ("assigned_manager_id", opt_str (assigned_manager_id p));
      ("requirement_type", opt_str (requirement_type p));
      ("source", opt_str (source p));
      ("status", VStr (status p));
      ("follow_up_ids", strs (follow_up_ids p)) ].
End Lead.

Module LeadRequest.
Record t := {
  name : string;
  phone : string;
  email : option string;
  project_id : option string;
  requirement_type : option string;
  source : option string;
}.
End LeadRequest.

Module LeadUpdate.
Record t := {
  status : option string;
  assigned_agent_id : option string;
  assigned_manager_id : option string;
}.

(** A field of the JSON body before parsing: left out, [null], or given. *)
Inductive json_field := Absent | Null | Given (s : string).

Record body := {
  body_status : json_field;
  body_assigned_agent_id : json_field;
  body_assigned_manager_id : json_field;
}.

(** [Optional[str] = None]: a missing field takes the default [None], and
    [null] parses to [None]. *)
Definition parse_field (f : json_field) : option string :=
  match f with Given s => Some s | Absent | Null => None end.

Definition parse (b : body) : t :=
  {| status := parse_field (body_status b);
     assigned_agent_id := parse_field (body_assigned_agent_id b);
     assigned_manager_id := parse_field (body_assigned_manager_id b) |}.

Definition set_some {F} (k : string) (o : option string) (d : Doc F) : Doc F :=
  match o with Some s => <[k := VStr s]> d | None => d end.

(** [model_dump(exclude_none=True)] *)
Definition model_dump_exclude_none {F} (p : t) : Doc F :=
  set_some "status" (status p)
    (set_some "assigned_agent_id" (assigned_agent_id p)
       (set_some "assigned_manager_id" (assigned_manager_id p) ∅)).
End LeadUpdate.

Module FollowUp.
Record t := {
  lead_id : string;
  notes : string;
  next_date : option string;
  type : string;
  agent_id : option string;
}.
(** [pattern=r"^(call|visit|whatsapp)$"] *)
Definition valid (p : t) : bool :=
  String.eqb (type p) "call" || String.eqb (type p) "visit"
  || String.eqb (type p) "whatsapp".
Definition model_dump {F} (p : t) : Doc F :=
  list_to_map
    [ ("lead_id", VStr (lead_id p)); ("notes", VStr (notes p));
      ("next_date", opt_str (next_date p)); ("type", VStr (type p));
      ("agent_id", opt_str (agent_id p)) ].
End FollowUp.

Definition QuotationInputs_dump {F} (i : QuotationInputs F) : Doc F :=
  list_to_map
    [ ("area", VFloat (area i)); ("rate_per_sqft", VFloat (rate_per_sqft i));
      ("material_cost", VFloat (material_cost i));
      ("gst_percent", VFloat (gst_percent i));
      ("markup_percent", VFloat (markup_percent i)) ].

Module QuotationCreate.
Record t (F : Type) := {
  lead_id : string;
  project_id : option string;
  inputs : QuotationInputs F;
  created_by : option string;
}.
Arguments lead_id {F} _.
Arguments project_id {F} _.
Arguments inputs {F} _.
Arguments created_by {F} _.
Definition valid {F} `{PyFloat F} (p : t F) : bool := QuotationInputs_valid (inputs p).
End QuotationCreate.

Module Quotation.
Record t (F : Type) := {
  lead_id : string;
  project_id : option string;
  pricing_inputs : QuotationInputs F;
  generated_price : F;
  pdf_url : option string;
  created_by : option string;
}.
Arguments lead_id {F} _.
Arguments project_id {F} _.
Arguments pricing_inputs {F} _.
Arguments generated_price {F} _.
Arguments pdf_url {F} _.
Arguments created_by {F} _.
(** [generated_price: float = Field(..., ge=0)]; the nested inputs arrive
    as an already validated instance. *)
Definition valid {F} `{PyFloat F} (p : t F) : bool := fge0 (generated_price p).
Definition model_dump {F} (p : t F) : Doc F :=
  list_to_map
    [ ("lead_id", VStr (lead_id p)); ("project_id", opt_str (project_id p));
      ("pricing_inputs", VDict (QuotationInputs_dump (pricing_inputs p)));
      ("generated_price", VFloat (generated_price p));
      ("pdf_url", opt_str (pdf_url p)); ("created_by", opt_str (created_by p)) ].
End Quotation.


(** ** The handlers of [main.py] *)

Section Handlers.
Context {F : Type} `{PyFloat F}.

(** Python's [str] on a float, a date, a list or a dict is not modelled; it
    is only reached for an [_id] that is neither an identifier nor a
    string. *)
Variable py_repr : Value F -> string.

Definition py_str (v : Value F) : string :=
  match v with
  | VOid o => oid_str o
  | VStr s => s
  | _ => py_repr v
  end.

Definition obj (l : list (string * Value F)) : Value F := VDict (list_to_map l).

Definition str_if_oid (x : Value F) : Value F :=
  match x with VOid o => VStr (oid_str o) | _ => x end.

(** One turn of the loop of [to_serializable]. *)
Definition convert_item (k : string) (v : Value F) (doc : Doc F) : Doc F :=
  let doc := match v with VOid o => <[k := VStr (oid_str o)]> doc | _ => doc end in
  match v with VList l => <[k := VList (str_if_oid <$> l)]> doc | _ => doc end.

Definition to_serializable (doc : Doc F) : Doc F :=
  if dict_empty doc then doc
  else
    let doc :=
      match doc !! "_id" with
      | Some v => <["id" := VStr (py_str v)]> (delete "_id" doc)
      | None => doc
      end in
    map_fold convert_item doc doc.

Definition serialized (l : list (Doc F)) : Value F :=
  VList (VDict <$> (to_serializable <$> l)).


Definition create_community (s : Db F) (payload : Community.t F) : Db F * Response F :=
  let '(s1, new_id) := create_document s "community" (Community.model_dump payload) in
  (s1, Ok (obj [("id", VStr new_id)])).

Definition create_tower (s : Db F) (payload : Tower.t) : Db F * Response F :=
  let '(s1, new_id) := create_document s "tower" (Tower.model_dump payload) in
  (s1, Ok (obj [("id", VStr new_id)])).

Definition create_flat (s : Db F) (payload : Flat.t) : Db F * Response F :=
  let '(s1, new_id) := create_document s "flat" (Flat.model_dump payload) in
  (s1, Ok (obj [("id", VStr new_id)])).

Definition create_floorplan (s : Db F) (payload : FloorPlan.t F) : Db F * Response F :=
  let '(s1, new_id) := create_document s "floorplan" (FloorPlan.model_dump payload) in
  (s1, Ok (obj [("id", VStr new_id)])).

(** [x or default] on an optional string. *)
Definition or_default (o : option string) (dflt : string) : string :=
  match o with
  | Some s => if String.eqb s "" then dflt else s
  | None => dflt
  end.

Definition create_lead (s : Db F) (payload : LeadRequest.t) : Db F * Response F :=
  let lead :=
    {| Lead.name := LeadRequest.name payload;
       Lead.phone := LeadRequest.phone payload;
       Lead.email := LeadRequest.email payload;
       Lead.requirement_type :=
         Some (or_default (LeadRequest.requirement_type payload) "Interior");
       Lead.source := Some (or_default (LeadRequest.source payload) "web");
       Lead.status := "New";
       Lead.assigned_manager_id := None;
       Lead.assigned_agent_id := None;
       Lead.follow_up_ids := [] |} in
  let '(s1, new_id) := create_document s "lead" (Lead.model_dump lead) in
  (s1, Ok (obj [("id", VStr new_id); ("status", VStr "New")])).

Definition list_leads (s : Db F) (assigned_to : option string) : Response F :=
  let filt :=
    match assigned_to with
    | Some a =>
        if String.eqb a "" then QAll
        else QOr (QField "assigned_agent_id" a) (QField "assigned_manager_id" a)
    | None => QAll
    end in
  Ok (serialized (sort_created_at_desc (find s "lead" filt))).

Definition update_lead (s : Db F) (lead_id : string) (payload : LeadUpdate.t)
  : Db F * Response F :=
  if negb (is_valid lead_id) then (s, HTTPException 400 "Invalid lead id")
  else
    let update_doc := LeadUpdate.model_dump_exclude_none payload in
    if dict_empty update_doc then (s, Ok (obj [("updated", VBool false)]))
    else
      match ObjectId_new lead_id with
      | None =>
          (* an identifier of fewer than 12 bytes: taken to equal no
             stored [_id], each of which has 12 *)
          (s, HTTPException 404 "Lead not found")
      | Some oid =>
          match update_one s "lead" (QId oid) (op_set update_doc) with
          | None => (s, Unhandled "WriteError")
          | Some (s1, matched_count) =>
              if Nat.eqb matched_count 0
              then (s1, HTTPException 404 "Lead not found")
              else (s1, Ok (obj [("updated", VBool true)]))
          end
      end.

(** [not exists] on the result of [find_one]. *)
Definition falsy (o : option (Doc F)) : bool :=
  match o with
  | None => true
  | Some d => dict_empty d
  end.

Definition create_followup (s : Db F) (payload : FollowUp.t) : Db F * Response F :=
  if negb (is_valid (FollowUp.lead_id payload))
  then (s, HTTPException 400 "Invalid lead id")
  else
    match ObjectId_new (FollowUp.lead_id payload) with
    | None =>
        (* an identifier of fewer than 12 bytes: taken to equal no stored
           [_id], each of which has 12 *)
        (s, HTTPException 404 "Lead not found")
    | Some oid =>
        let exists_ := find_one s "lead" (QId oid) in
        if falsy exists_ then (s, HTTPException 404 "Lead not found")
        else
          let '(s1, new_id) :=
            create_document s "followup" (FollowUp.model_dump payload) in
          match update_one s1 "lead" (QId oid)
                  (op_push "follow_up_ids" (VStr new_id)) with
          | None => (s1, Unhandled "WriteError")
          | Some (s2, _) => (s2, Ok (obj [("id", VStr new_id)]))
          end
    end.

Definition list_followups (s : Db F) (lead_id : string) : Response F :=
  if negb (is_valid lead_id) then HTTPException 400 "Invalid lead id"
  else Ok (serialized (sort_created_at_desc (find s "followup" (QField "lead_id" lead_id)))).

Definition create_quote (s : Db F) (payload : QuotationCreate.t F) : Db F * Response F :=
  if negb (is_valid (QuotationCreate.lead_id payload))
  then (s, HTTPException 400 "Invalid lead id")
  else
    let res := compute_quote (QuotationCreate.inputs payload) in
    let quotation :=
      {| Quotation.lead_id := QuotationCreate.lead_id payload;
         Quotation.project_id := QuotationCreate.project_id payload;
         Quotation.pricing_inputs := QuotationCreate.inputs payload;
         Quotation.generated_price := q_total res;
         Quotation.created_by := QuotationCreate.created_by payload;
         Quotation.pdf_url := None |} in
    if negb (Quotation.valid quotation) then (s, Unhandled "ValidationError")
    else
      let '(s1, new_id) :=
        create_document s "quotation" (Quotation.model_dump quotation) in
      (s1, Ok (obj [("id", VStr new_id); ("total", VFloat (q_total res))])).

Definition quotes_by_lead (s : Db F) (lead_id : string) : Response F :=
  if negb (is_valid lead_id) then HTTPException 400 "Invalid lead id"
  else Ok (serialized (sort_created_at_desc (find s "quotation" (QField "lead_id" lead_id)))).

End Handlers.


(** ** The calculator as the claims word it *)

Section StagedCalculator.
Context {F : Type} `{PyFloat F}.

(** Every stage rounded to two decimals, each later stage computed from the
    rounded value of the earlier one. *)
Definition staged_quote (i : QuotationInputs F) : Quote F :=
  let subtotal := round2 (fadd (fmul (area i) (rate_per_sqft i)) (material_cost i)) in
  let gst := round2 (fmul subtotal (fdiv (gst_percent i) (flit 100))) in
  let total_with_gst := round2 (fadd subtotal gst) in
  let markup := round2 (fmul total_with_gst (fdiv (markup_percent i) (flit 100))) in
  {| q_subtotal := subtotal;
     q_gst := gst;
     q_markup := markup;
     q_total := round2 (fadd total_with_gst markup) |}.

(** The closed form
    [(area * rate + material_cost) * (1 + gst/100) * (1 + markup/100)]. *)
Definition product_form (i : QuotationInputs F) : F :=
  fmul
    (fmul (fadd (fmul (area i) (rate_per_sqft i)) (material_cost i))
          (fadd (flit 1) (fdiv (gst_percent i) (flit 100))))
    (fadd (flit 1) (fdiv (markup_percent i) (flit 100))).


End StagedCalculator.

(** ** The requests the claims range over *)

(** What a PATCH leaves in a field of the Lead, by what the body gave. *)
Definition written_as {F} (f : LeadUpdate.json_field) (old : option (Value F))
  : option (Value F) :=
  match f with
  | LeadUpdate.Given v => Some (VStr v)
  | LeadUpdate.Absent | LeadUpdate.Null => old
  end.

Definition null_as_absent (f : LeadUpdate.json_field) : LeadUpdate.json_field :=
  match f with LeadUpdate.Null => LeadUpdate.Absent | _ => f end.

Definition nulls_removed (b : LeadUpdate.body) : LeadUpdate.body :=
  {| LeadUpdate.body_status := null_as_absent (LeadUpdate.body_status b);
     LeadUpdate.body_assigned_agent_id :=
       null_as_absent (LeadUpdate.body_assigned_agent_id b);
     LeadUpdate.body_assigned_manager_id :=
       null_as_absent (LeadUpdate.body_assigned_manager_id b) |}.

Definition no_fields (p : LeadUpdate.t) : Prop :=
  LeadUpdate.status p = None /\ LeadUpdate.assigned_agent_id p = None
  /\ LeadUpdate.assigned_manager_id p = None.

(** The shape the handlers keep for the Lead collection: every Lead has a
    follow-up list. *)
Definition has_follow_up_list {F} (d : Doc F) : Prop :=
  exists l, d !! "follow_up_ids" = Some (VList l).

Definition leads_wf {F} (s : Db F) : Prop :=
  Forall has_follow_up_list (coll s "lead").

(** The endpoints that accept an identifier from the caller. *)
Inductive IdRequest (F : Type) :=
| GetLeads (assigned_to : string)
| PatchLead (lead_id : string) (payload : LeadUpdate.t)
| PostFollowup (payload : FollowUp.t)
| GetFollowups (lead_id : string)
| PostQuotation (payload : QuotationCreate.t F)
| GetQuotationsByLead (lead_id : string).

Arguments GetLeads {F}.
Arguments PatchLead {F}.
Arguments PostFollowup {F}.
Arguments GetFollowups {F}.
Arguments PostQuotation {F}.
Arguments GetQuotationsByLead {F}.

Definition supplied_id {F} (r : IdRequest F) : string :=
  match r with
  | GetLeads a => a
  | PatchLead i _ => i
  | PostFollowup p => FollowUp.lead_id p
  | GetFollowups i => i
  | PostQuotation p => QuotationCreate.lead_id p
  | GetQuotationsByLead i => i
  end.

Definition handle {F} `{PyFloat F} (py_repr : Value F -> string)
    (s : Db F) (r : IdRequest F) : Db F * Response F :=
  match r with
  | GetLeads a => (s, list_leads py_repr s (Some a))
  | PatchLead i p => update_lead s i p
  | PostFollowup p => create_followup s p
  | GetFollowups i => (s, list_followups py_repr s i)
  | PostQuotation p => create_quote s p
  | GetQuotationsByLead i => (s, quotes_by_lead py_repr s i)
  end.

(** Every request that can change the store, and the stores the handlers
    can build from the empty one. *)
Inductive Request (F : Type) :=
| PostCommunity (payload : Community.t F)
| PostTower (payload : Tower.t)
| PostFlat (payload : Flat.t)
| PostFloorplan (payload : FloorPlan.t F)
| PostLead (payload : LeadRequest.t)
| WithId (r : IdRequest F).

Arguments PostCommunity {F}.
Arguments PostTower {F}.
Arguments PostFlat {F}.
Arguments PostFloorplan {F}.
Arguments PostLead {F}.
Arguments WithId {F}.

Definition serve {F} `{PyFloat F} (py_repr : Value F -> string)
    (s : Db F) (r : Request F) : Db F * Response F :=
  match r with
  | PostCommunity p => create_community s p
  | PostTower p => create_tower s p
  | PostFlat p => create_flat s p
  | PostFloorplan p => create_floorplan s p
  | PostLead p => create_lead s p
  | WithId r => handle py_repr s r
  end.

Inductive reachable {F} `{PyFloat F} (py_repr : Value F -> string) : Db F -> Prop :=
| reachable_empty s : colls s = ∅ -> reachable py_repr s
| reachable_serve s r : reachable py_repr s -> reachable py_repr (serve py_repr s r).1.

(** A string that [ObjectId.is_valid] accepts and that denotes fewer than
    12 bytes. *)
Definition short_id (oid : string) : bool :=
  is_valid oid && match ObjectId_new oid with Some _ => false | None => true end.

(** The request builds [ObjectId(...)] from such a string and sends it to
    the store. *)
Definition uses_short_id {F} (r : IdRequest F) : bool :=
  match r with
  | PatchLead i p =>
      short_id i && negb (dict_empty (LeadUpdate.model_dump_exclude_none (F := F) p))
  | PostFollowup p => short_id (FollowUp.lead_id p)
  | _ => false
  end.

(** What the handlers store in a field of a Lead or of a FollowUp: null, a
    string, a date or a list of strings. *)
Definition is_str_value {F} (v : Value F) : bool :=
  match v with VStr _ => true | _ => false end.

Definition is_text {F} (v : Value F) : bool :=
  match v with
  | VNone | VStr _ | VDate _ => true
  | VList l => forallb is_str_value l
  | _ => false
  end.

Definition text_doc {F} (d : Doc F) : Prop :=
  forall k v, d !! k = Some v -> k ≠ "_id" -> is_text v = true.

Definition leads_followups_text {F} (s : Db F) : Prop :=
  forall name d, name = "lead" \/ name = "followup" -> d ∈ coll s name -> text_doc d.





(** [d] is one of the records of a response: an element of the list a list
    endpoint returns, or of one of the lists of the catalog. *)
Definition returned {F} (r : Response F) (d : Doc F) : Prop :=
  match r with
  | Ok (VList l) => VDict d ∈ l
  | Ok (VDict m) => exists k l, m !! k = Some (VList l) /\ VDict d ∈ l
  | _ => False
  end.

(** What [to_serializable] makes of a field value. *)
Definition converted {F} (v : Value F) : Value F :=
  match v with
  | VOid o => VStr (oid_str o)
  | VList l => VList (str_if_oid <$> l)
  | _ => v
  end.

(** A whole number of hundredths. *)
Definition two_decimals (x : Q) : Prop := exists n : Z, x == n # 100.

(** ** Example data *)

Definition example_inputs : QuotationInputs float :=
  {| area := 1000; rate_per_sqft := 1500; material_cost := 50000;
     gst_percent := 18; markup_percent := 10 |}%float.

Definition tie_product_inputs : QuotationInputs float :=
  {| area := 0.625; rate_per_sqft := 1; material_cost := 0;
     gst_percent := 18; markup_percent := 20 |}%float.

Definition empty_db {F} : Db F := {| colls := ∅; next_oid := 1%N; clock := 0%N |}.

Definition no_repr {F} (v : Value F) : string := "".

Definition id_0 : string := "000000000000000000000000".
Definition id_1 : string := "000000000000000000000001".

Definition asha : LeadRequest.t :=
  {| LeadRequest.name := "Asha"; LeadRequest.phone := "5550100";
     LeadRequest.email := None; LeadRequest.project_id := None;
     LeadRequest.requirement_type := None; LeadRequest.source := None |}.

(** The store after one POST /api/leads: a single Lead, identifier [id_1]. *)
Definition one_lead_db : Db Q := (create_lead empty_db asha).1.

(** The Lead document that POST stored. *)
Definition asha_doc : Doc Q :=
  <["_id" := VOid 1%N]>
    (<["created_at" := VDate 0%N]>
       (Lead.model_dump
          {| Lead.name := "Asha"; Lead.phone := "5550100"; Lead.email := None;
             Lead.assigned_agent_id := None; Lead.assigned_manager_id := None;
             Lead.requirement_type := Some "Interior"; Lead.source := Some "web";
             Lead.status := "New"; Lead.follow_up_ids := [] |})).

(** 22 digits and two blanks: 24 characters, 11 bytes. *)
Definition id_blank : string := "0000000000000000000000  ".

Definition call_about (lead_id : string) : FollowUp.t :=
  {| FollowUp.lead_id := lead_id; FollowUp.notes := "called back";
     FollowUp.next_date := None; FollowUp.type := "call";
     FollowUp.agent_id := None |}.

Definition no_update : LeadUpdate.t :=
  {| LeadUpdate.status := None; LeadUpdate.assigned_agent_id := None;
     LeadUpdate.assigned_manager_id := None |}.

Definition status_update : LeadUpdate.t :=
  {| LeadUpdate.status := Some "Contacted"; LeadUpdate.assigned_agent_id := None;
     LeadUpdate.assigned_manager_id := None |}.

Definition status_body : LeadUpdate.body :=
  {| LeadUpdate.body_status := LeadUpdate.Given "Contacted";
     LeadUpdate.body_assigned_agent_id := LeadUpdate.Null;
     LeadUpdate.body_assigned_manager_id := LeadUpdate.Absent |}.

Definition quote_for (lead_id : string) : QuotationCreate.t float :=
  {| QuotationCreate.lead_id := lead_id; QuotationCreate.project_id := None;
     QuotationCreate.inputs := example_inputs; QuotationCreate.created_by := None |}.

Definition tie_inputs : QuotationInputs float :=
  {| area := 0.5; rate_per_sqft := 0.25; material_cost := 0;
     gst_percent := 100; markup_percent := 0 |}%float.



(** ** The remaining functions of [main.py] *)

(** What [PyObjectId.validate] is handed: an identifier or a string.
    [Valid] is a 12-byte identifier returned, [ValidShort] a returned
    identifier of the fewer bytes given, [ValueError] the exception. *)
Inductive IdArg :=
| ArgObjectId (o : ObjectId)
| ArgStr (s : string).

Inductive Validated :=
| Valid (o : ObjectId)
| ValidShort (bytes : list N)
| ValueError (msg : string).

Definition PyObjectId_validate (v : IdArg) : Validated :=
  match v with
  | ArgObjectId o => Valid o
  | ArgStr s =>
      if negb (is_valid s) then ValueError "Invalid ObjectId"
      else match ObjectId_new s with
           | Some o => Valid o
           | None => ValidShort (default [] (fromhex s))
           end
  end.

(** [schemas.SCHEMA_MANIFEST] *)
Definition SCHEMA_MANIFEST : list string :=
  [ "community"; "tower"; "flat"; "floorplan"; "followup"; "lead";
    "quotation"; "user" ].

Definition root {F} : Response F :=
  Ok (obj [("message", VStr "DreamNest API running")]).

Definition schema {F} : Response F :=
  Ok (obj [("collections", strs SCHEMA_MANIFEST)]).

(** The identifiers of a collection, in store order. *)
Definition ids_of {F} (c : list (Doc F)) : list (option (Value F)) :=
  (fun d => d !! "_id") <$> c.

(** Every stored record carries an identifier the generator has already
    passed. *)
Definition ids_fresh {F} (s : Db F) : Prop :=
  forall name d, d ∈ coll s name ->
    exists o, d !! "_id" = Some (VOid o) /\ (o < next_oid s)%N.

(** Between two stores, no record has gone and none has changed its
    identifier; outside the Lead collection the old records are as they
    were. *)
Definition records_kept {F} (s s' : Db F) : Prop :=
  forall name,
    ids_of (coll s name) `prefix_of` ids_of (coll s' name)
    /\ (name ≠ "lead" -> coll s name `prefix_of` coll s' name).


(** The field [k] of a stored record is the string [a], or an array that
    holds it: what an equality filter matches. *)
Definition field_holds {F} (x : Doc F) (k a : string) : Prop :=
  x !! k = Some (VStr a) \/ exists l, x !! k = Some (VList l) /\ VStr a ∈ l.

(** ** Further example data *)

Definition agent_update : LeadUpdate.t :=
  {| LeadUpdate.status := None; LeadUpdate.assigned_agent_id := Some "agent-7";
     LeadUpdate.assigned_manager_id := None |}.

(** Inputs that pass every [ge=0] check and overflow in the subtotal: with
    a markup the total is infinite, without one it is not a number. *)
#[warnings="-inexact-float"]
Definition overflow_inputs (markup_percent : float) : QuotationInputs float :=
  {| area := 1e200; rate_per_sqft := 1e200; material_cost := 0;
     gst_percent := 18; markup_percent := markup_percent |}%float.

Definition overflow_quote_for (markup_percent : float) : QuotationCreate.t float :=
  {| QuotationCreate.lead_id := id_0; QuotationCreate.project_id := None;
     QuotationCreate.inputs := overflow_inputs markup_percent;
     QuotationCreate.created_by := None |}.


(** A Lead some other client stored, with a follow-up field that is not a
    list. *)
Definition legacy_lead : Doc Q :=
  list_to_map
    [ ("_id", VOid 1%N); ("name", VStr "Ravi"); ("follow_up_ids", VStr "none") ].

Definition legacy_db : Db Q :=
  {| colls := {[ "lead" := [legacy_lead] ]}; next_oid := 2%N; clock := 1%N |}.

(** * Properties *)

(** ** Rounding *)

Lemma round_half_even_near (n : Z) (d : positive) :
  2 * Z.abs (n - Zpos d * round_half_even n d) <= Zpos d.
Proof.
  unfold round_half_even.
  pose proof (Z.div_mod n (Zpos d) ltac:(lia)) as Hdm.
  pose proof (Z.mod_pos_bound n (Zpos d) ltac:(lia)) as Hr.
  destruct (Z.compare_spec (2 * (n mod Zpos d)) (Zpos d)) as [He | Hl | Hg];
    [destruct (Z.even (n / Zpos d)) | | ]; nia.
Qed.




Lemma Exact_round_2_two_decimals (x : Q) : two_decimals (Exact.round_2 x).
Proof. eexists. unfold Exact.round_2. reflexivity. Qed.

Lemma Exact_round_2_near (x : Q) : (Qabs (Exact.round_2 x - x) <= 1 # 200)%Q.
Proof.
  unfold Exact.round_2.
  pose proof (round_half_even_near (100 * Qnum x) (Qden x)) as Hn.
  destruct x as [n d]. simpl in *.
  set (r := round_half_even (100 * n) d) in *.
  clearbody r. unfold Qle, Qabs, Qminus, Qplus, Qopp. simpl.
  rewrite Pos2Z.inj_mul. lia.
Qed.

(** ** The quotation calculator *)

(** C7: on the worked example (area 1000, rate 1500, material cost 50000,
    GST 18, markup 10) [compute_quote], run on binary64, returns subtotal
    1550000.00, gst 279000.00, markup 182900.00 and total 2011900.00, and
    the intermediate [total_with_gst] is 1829000.00. *)
Theorem compute_quote_example :
  compute_quote example_inputs =
    {| q_subtotal := 1550000; q_gst := 279000;
       q_markup := 182900; q_total := 2011900 |}%float
  /\ total_with_gst example_inputs = 1829000%float.
Proof. split; vm_compute; reflexivity. Qed.

(** C3, as stated, fails: with area 0.5, rate 0.25, no material cost, GST
    100 and markup 0 the code returns total 0.25, computed from the
    unrounded subtotal and gst (0.125 each), while stage-by-stage rounding
    (0.12 + 0.12) gives 0.24. *)
Lemma staged_rounding_counterexample :
  ~ (forall i : QuotationInputs float,
       QuotationInputs_valid i = true -> compute_quote i = staged_quote i).
Proof.
  intros Hall.
  assert (Hv : QuotationInputs_valid tie_inputs = true) by (vm_compute; reflexivity).
  specialize (Hall tie_inputs Hv).
  apply (f_equal (fun q => PrimFloat.eqb (q_total q) 0.25)) in Hall.
  vm_compute in Hall. discriminate Hall.
Qed.

(** C3, amended: [compute_quote] rounds each value it returns (subtotal,
    gst, markup, total) to two decimals at the return; every stage,
    [total_with_gst] included, is computed from the unrounded value of the
    earlier stages.  Over exact arithmetic each returned value is a whole
    number of hundredths within half a hundredth of its unrounded stage. *)
Theorem compute_quote_rounds_on_return :
  (forall (F : Type) (ops : PyFloat F) (i : QuotationInputs F),
     let sub := fadd (fmul (area i) (rate_per_sqft i)) (material_cost i) in
     let g := fmul sub (fdiv (gst_percent i) (flit 100)) in
     let twg := fadd sub g in
     let mk := fmul twg (fdiv (markup_percent i) (flit 100)) in
     compute_quote i =
       {| q_subtotal := round2 sub; q_gst := round2 g;
          q_markup := round2 mk; q_total := round2 (fadd twg mk) |})
  /\ (forall i : QuotationInputs Q,
        let q := compute_quote i in
        (two_decimals (q_subtotal q) /\ two_decimals (q_gst q)
         /\ two_decimals (q_markup q) /\ two_decimals (q_total q))
        /\ (Qabs (q_subtotal q - subtotal i) <= 1 # 200
            /\ Qabs (q_gst q - gst i) <= 1 # 200
            /\ Qabs (q_markup q - markup i) <= 1 # 200
            /\ Qabs (q_total q - (total_with_gst i + markup i)) <= 1 # 200)%Q).
Proof.
  split.
  - intros F ops i. reflexivity.
  - intros i q. subst q. unfold compute_quote, grand_total.
    cbn [q_subtotal q_gst q_markup q_total].
    repeat split;
      first [ apply Exact_round_2_two_decimals
            | apply Exact_round_2_near
            | apply (Exact_round_2_near (total_with_gst i + markup i)) ].
Qed.



(** At small magnitudes too: where the product form is a decimal tie
    (0.625 * 1.18 * 1.2 = 0.885), the double the staged sum yields and the
    double the product yields fall on either side of it and round a cent
    apart. *)
#[warnings="-inexact-float"]
Remark binary64_tie_rounds_apart :
  q_total (compute_quote tie_product_inputs) = 0.89%float
  /\ round2 (product_form tie_product_inputs) = 0.88%float.
Proof. split; vm_compute; reflexivity. Qed.

(** And where the subtotal overflows: without a markup the staged sum is
    not a number, while the product form is infinite. *)
Remark binary64_overflow_apart :
  QuotationInputs_valid (overflow_inputs 0) = true
  /\ PrimFloat.is_nan (q_total (compute_quote (overflow_inputs 0))) = true
  /\ round2 (product_form (overflow_inputs 0)) = infinity.
Proof. repeat split. Qed.

(** ** Identifiers and the store *)

Lemma ObjectId_new_is_valid (oid : string) (o : ObjectId) :
  ObjectId_new oid = Some o -> is_valid oid = true.
Proof. unfold ObjectId_new. destruct (is_valid oid); [reflexivity | discriminate]. Qed.

(** [str] renders an identifier as a string [ObjectId.is_valid] accepts and
    [ObjectId] reads back. *)
Lemma hex_digit_value_char (v : N) : (v < 16)%N -> hex_digit_value (hex_char v) = Some v.
Proof.
  intros Hv.
  assert (Hall : forallb (fun n => match hex_digit_value (hex_char (N.of_nat n)) with
                                   | Some w => N.eqb w (N.of_nat n)
                                   | None => false
                                   end) (seq 0 16) = true) by reflexivity.
  rewrite forallb_forall in Hall.
  specialize (Hall (N.to_nat v)). rewrite N2Nat.id in Hall.
  destruct (hex_digit_value (hex_char v)) as [w|].
  - f_equal. apply N.eqb_eq, Hall, in_seq. lia.
  - discriminate Hall. apply in_seq. lia.
Qed.

Lemma hex_encode_length (k : nat) (n : N) (acc : string) :
  String.length (hex_encode k n acc) = (k + String.length acc)%nat.
Proof.
  revert n acc. induction k as [|k IH]; intros n acc; cbn; [reflexivity|].
  rewrite IH. cbn. lia.
Qed.

Lemma hex_decode_encode (k : nat) (n a : N) (acc : string) :
  hex_decode a (hex_encode k n acc)
  = hex_decode (a * 16 ^ N.of_nat k + n mod 16 ^ N.of_nat k)%N acc.
Proof.
  revert n a acc. induction k as [|k IH]; intros n a acc.
  - cbn. f_equal. rewrite N.mod_1_r. lia.
  - cbn [hex_encode]. rewrite IH. cbn [hex_decode].
    rewrite hex_digit_value_char by (apply N.mod_lt; lia).
    f_equal. rewrite Nat2N.inj_succ, N.pow_succ_r'.
    rewrite (N.Div0.mod_mul_r n 16 (16 ^ N.of_nat k)). lia.
Qed.

Lemma hex_char_not_space (v : N) : (v < 16)%N -> is_space (hex_char v) = false.
Proof.
  intros Hv.
  assert (Hall : forallb (fun n => negb (is_space (hex_char (N.of_nat n))))
                   (seq 0 16) = true) by reflexivity.
  rewrite forallb_forall in Hall.
  specialize (Hall (N.to_nat v)). rewrite N2Nat.id in Hall.
  apply negb_true_iff, Hall, in_seq. lia.
Qed.

Lemma fromhex_hex_encode (k : nat) (n : N) (acc : string) :
  is_Some (fromhex acc) -> is_Some (fromhex (hex_encode (k * 2) n acc)).
Proof.
  revert n acc. induction k as [|k IH]; intros n acc Hacc; [exact Hacc|].
  change (S k * 2)%nat with (S (S (k * 2))). cbn [hex_encode]. apply IH.
  cbn [fromhex].
  rewrite hex_char_not_space by (apply N.mod_lt; lia).
  rewrite !hex_digit_value_char by (apply N.mod_lt; lia).
  destruct Hacc as [l ->]. cbn. eauto.
Qed.

Lemma oid_str_round_trip (o : ObjectId) :
  (o < 2 ^ 96)%N -> is_valid (oid_str o) = true /\ ObjectId_new (oid_str o) = Some o.
Proof.
  intros Ho.
  assert (Hv : is_valid (oid_str o) = true).
  { unfold is_valid, oid_str. rewrite hex_encode_length. cbn [String.length Nat.add Nat.eqb andb].
    destruct (fromhex_hex_encode 12 o "") as [l Hl]; [cbn; eauto|].
    change (12 * 2)%nat with 24%nat in Hl. by rewrite Hl. }
  split; [exact Hv|].
  unfold ObjectId_new. rewrite Hv. unfold oid_str.
  rewrite hex_decode_encode. cbn [hex_decode].
  change (16 ^ N.of_nat 24)%N with (2 ^ 96)%N.
  rewrite N.mod_small by exact Ho. reflexivity.
Qed.

(** The check is on length and on what [bytes.fromhex] reads: 22 digits
    followed by two blanks pass it, and the identifier built from them has
    11 bytes. *)
Remark is_valid_accepts_blanks :
  is_valid id_blank = true /\ ObjectId_new id_blank = None
  /\ length <$> fromhex id_blank = Some 11%nat.
Proof. repeat split. Qed.

Section StoreProps.
Context {F : Type}.
Implicit Types (s : Db F) (d : Doc F) (c : list (Doc F)) (q : Query).

Lemma coll_set_coll_eq s name c : coll (set_coll s name c) name = c.
Proof. unfold coll, set_coll. cbn. by rewrite lookup_insert_eq. Qed.

Lemma coll_set_coll_ne s name name' c :
  name ≠ name' -> coll (set_coll s name c) name' = coll s name'.
Proof. intros Hne. unfold coll, set_coll. cbn. by rewrite lookup_insert_ne. Qed.

Lemma matches_id_lookup o d :
  matches (QId o) d = true <-> d !! "_id" = Some (VOid o).
Proof.
  cbn. destruct (d !! "_id") as [[]|] eqn:E; try (split; [discriminate | congruence]).
  rewrite N.eqb_eq. split; congruence.
Qed.

Lemma matches_id_not_empty o d : matches (QId o) d = true -> dict_empty d = false.
Proof.
  intros Hm%matches_id_lookup. unfold dict_empty.
  apply Nat.eqb_neq. eapply (map_size_ne_0_lookup_2 d "_id"). eauto.
Qed.

(** "No record with this identifier": what [find_one] answering [None]
    says about the collection. *)
Lemma find_one_id_None s name o :
  find_one s name (QId o) = None <->
  forall d, d ∈ coll s name -> d !! "_id" ≠ Some (VOid o).
Proof.
  unfold find_one. split.
  - intros Hn d Hin Hid. apply list_elem_of_In in Hin.
    pose proof (find_none _ _ Hn d Hin) as Hm.
    apply matches_id_lookup in Hid. congruence.
  - intros Hall. destruct (List.find _ _) as [d|] eqn:E; [|reflexivity].
    apply find_some in E as [Hin Hm]. apply list_elem_of_In in Hin.
    apply matches_id_lookup in Hm. destruct (Hall d Hin Hm).
Qed.

Lemma find_one_id_Some s name o d :
  find_one s name (QId o) = Some d ->
  d ∈ coll s name /\ d !! "_id" = Some (VOid o).
Proof.
  unfold find_one. intros [Hin Hm]%find_some.
  split; [by apply list_elem_of_In | by apply matches_id_lookup].
Qed.

Lemma update_first_no_match q f c :
  List.find (matches q) c = None -> update_first q f c = Some (c, O).
Proof.
  induction c as [|d c IH]; cbn; [reflexivity|].
  destruct (matches q d); [discriminate|]. intros Hn. by rewrite IH.
Qed.

Lemma update_first_match q f c d d' :
  List.find (matches q) c = Some d -> f d = Some d' ->
  exists c', update_first q f c = Some (c', 1%nat)
    /\ length c' = length c
    /\ (matches q d' = true -> List.find (matches q) c' = Some d').
Proof.
  induction c as [|x c IH]; cbn; [discriminate|].
  destruct (matches q x) eqn:Ex.
  - intros [= ->] ->. eexists. split; [reflexivity|]. split; [reflexivity|].
    cbn. intros ->. reflexivity.
  - intros Hf Hd. destruct (IH Hf Hd) as (c' & -> & Hlen & Hfind).
    eexists. split; [reflexivity|]. split; [cbn; by rewrite Hlen|].
    cbn. rewrite Ex. exact Hfind.
Qed.

Lemma update_first_error q f c d :
  List.find (matches q) c = Some d -> f d = None -> update_first q f c = None.
Proof.
  induction c as [|x c IH]; cbn; [discriminate|].
  destruct (matches q x).
  - intros [= ->] ->. reflexivity.
  - intros Hf Hd. by rewrite IH.
Qed.

(** A query that sees neither the old nor the new version of any rewritten
    document gets the same answer before and after [update_one]. *)
Lemma update_first_frame q q' f c c' n :
  update_first q f c = Some (c', n) ->
  (forall d d', matches q d = true -> f d = Some d' ->
                matches q' d = false /\ matches q' d' = false) ->
  List.find (matches q') c' = List.find (matches q') c.
Proof.
  intros Hu Hfr. revert c' n Hu.
  induction c as [|x c IH]; cbn; intros c' n.
  - intros [= <- <-]. reflexivity.
  - destruct (matches q x) eqn:Ex.
    + destruct (f x) as [x'|] eqn:Efx; [|discriminate].
      intros [= <- <-]. destruct (Hfr x x' Ex Efx) as [Hx Hx'].
      cbn. by rewrite Hx, Hx'.
    + destruct (update_first q f c) as [[c'' m]|]; [|discriminate].
      intros [= <- <-]. cbn. destruct (matches q' x); [reflexivity|].
      eapply IH. reflexivity.
Qed.

Lemma create_document_other s name name' data :
  name ≠ name' -> coll (create_document s name data).1 name' = coll s name'.
Proof.
  intros Hne. unfold create_document, insert_one, coll. cbn.
  by rewrite lookup_insert_ne.
Qed.

Lemma create_document_same s name data :
  coll (create_document s name data).1 name =
    coll s name ++ [<["_id" := VOid (next_oid s)]> (<["created_at" := VDate (clock s)]> data)].
Proof.
  unfold create_document, insert_one. unfold coll at 1. cbn.
  by rewrite lookup_insert_eq.
Qed.

Lemma create_document_id s name data :
  (create_document s name data).2 = oid_str (next_oid s).
Proof. reflexivity. Qed.

End StoreProps.

(** ** Follow-ups *)

Section FollowUpProps.
Context {F : Type}.
Implicit Types (s : Db F) (d : Doc F).

(** C4: a POST /api/followups whose [lead_id] is well-formed but matches no
    Lead answers 404 and leaves the store as it was: no FollowUp is
    persisted and no Lead is modified. *)
Theorem create_followup_missing_lead s (p : FollowUp.t) (oid : ObjectId) :
  ObjectId_new (FollowUp.lead_id p) = Some oid ->
  find_one s "lead" (QId oid) = None ->
  create_followup s p = (s, HTTPException 404 "Lead not found").
Proof.
  intros Hoid Hnone. unfold create_followup.
  rewrite (ObjectId_new_is_valid _ _ Hoid), Hoid, Hnone. reflexivity.
Qed.

(** C5: a POST /api/followups whose [lead_id] resolves to an existing Lead
    answers [{id}] with the identifier of the FollowUp record it has just
    stored, and the Lead's follow-up list is the old list with exactly that
    identifier appended. *)
Theorem create_followup_appends_id s (p : FollowUp.t) (oid : ObjectId) d
    (l : list (Value F)) :
  ObjectId_new (FollowUp.lead_id p) = Some oid ->
  find_one s "lead" (QId oid) = Some d ->
  d !! "follow_up_ids" = Some (VList l) ->
  exists s' new_id fu,
    create_followup s p = (s', Ok (VDict (list_to_map [("id", VStr new_id)])))
    /\ coll s' "followup" = coll s "followup" ++ [fu]
    /\ fu !! "_id" = Some (VOid (next_oid s))
    /\ new_id = oid_str (next_oid s)
    /\ fu !! "lead_id" = Some (VStr (FollowUp.lead_id p))
    /\ find_one s' "lead" (QId oid)
       = Some (<["follow_up_ids" := VList (l ++ [VStr new_id])]> d)
    /\ length (l ++ [VStr new_id : Value F]) = S (length l).
Proof.
  intros Hoid Hfind Hlist.
  pose proof Hfind as Hm. unfold find_one in Hm.
  apply find_some in Hm as [_ Hm].
  unfold create_followup.
  rewrite (ObjectId_new_is_valid _ _ Hoid), Hoid, Hfind. cbn [negb falsy].
  rewrite (matches_id_not_empty _ _ Hm).
  pose proof (create_document_other s "followup" "lead" (FollowUp.model_dump p)
                ltac:(discriminate)) as Hlead.
  pose proof (create_document_same s "followup" (FollowUp.model_dump p)) as Hfu.
  pose proof (create_document_id s "followup" (FollowUp.model_dump p)) as Hid.
  destruct (create_document s "followup" (FollowUp.model_dump p)) as [s1 new_id].
  cbn [fst snd] in Hlead, Hfu, Hid. subst new_id.
  set (new_id := oid_str (next_oid s)) in *.
  set (d' := <["follow_up_ids" := VList (l ++ [VStr new_id])]> d).
  assert (Hpush : op_push "follow_up_ids" (VStr new_id) d = Some d').
  { unfold op_push. by rewrite Hlist. }
  assert (Hm' : matches (QId oid) d' = true).
  { apply matches_id_lookup. unfold d'. rewrite lookup_insert_ne by discriminate.
    by apply matches_id_lookup. }
  assert (Hfind1 : List.find (matches (QId oid)) (coll s1 "lead") = Some d).
  { rewrite Hlead. exact Hfind. }
  destruct (update_first_match _ _ _ _ _ Hfind1 Hpush) as (c' & Hup & _ & Hfind').
  unfold update_one. rewrite Hup.
  exists (set_coll s1 "lead" c'), new_id.
  eexists. split; [reflexivity|].
  split; [rewrite coll_set_coll_ne by discriminate; exact Hfu|].
  split; [by rewrite lookup_insert_eq|].
  split; [reflexivity|].
  split.
  { rewrite lookup_insert_ne by discriminate.
    rewrite lookup_insert_ne by discriminate. reflexivity. }
  split.
  { unfold find_one. rewrite coll_set_coll_eq. by apply Hfind'. }
  rewrite length_app. cbn. lia.
Qed.

End FollowUpProps.

(** ** Partial update of a Lead *)

Section LeadUpdateProps.
Context {F : Type} `{PyFloat F}.
Implicit Types (s : Db F) (d : Doc F) (p : LeadUpdate.t).

Lemma model_dump_exclude_none_lookup p k :
  LeadUpdate.model_dump_exclude_none (F := F) p !! k =
    if decide (k = "status") then VStr <$> LeadUpdate.status p
    else if decide (k = "assigned_agent_id") then VStr <$> LeadUpdate.assigned_agent_id p
    else if decide (k = "assigned_manager_id") then VStr <$> LeadUpdate.assigned_manager_id p
    else None.
Proof.
  unfold LeadUpdate.model_dump_exclude_none, LeadUpdate.set_some.
  destruct p as [[st|] [ag|] [mg|]]; cbn;
    repeat case_decide; subst; simplify_map_eq; done.
Qed.

Lemma model_dump_exclude_none_empty p :
  dict_empty (LeadUpdate.model_dump_exclude_none (F := F) p) = true <-> no_fields p.
Proof.
  unfold dict_empty, no_fields. rewrite Nat.eqb_eq, map_size_empty_iff. split.
  - intros He.
    pose proof (model_dump_exclude_none_lookup p "status") as H1.
    pose proof (model_dump_exclude_none_lookup p "assigned_agent_id") as H2.
    pose proof (model_dump_exclude_none_lookup p "assigned_manager_id") as H3.
    rewrite He, lookup_empty in H1, H2, H3. cbn in H1, H2, H3.
    destruct p as [[st|] [ag|] [mg|]]; cbn in *; try discriminate. done.
  - intros (H1 & H2 & H3). destruct p as [st ag mg]. cbn in *. subst. reflexivity.
Qed.

Lemma op_set_keeps_id p d o :
  d !! "_id" = Some (VOid o) ->
  (LeadUpdate.model_dump_exclude_none p ∪ d) !! "_id" = Some (VOid o).
Proof.
  intros Hid. rewrite lookup_union_r; [exact Hid|].
  rewrite model_dump_exclude_none_lookup. reflexivity.
Qed.

Lemma parse_field_written (f : LeadUpdate.json_field) (upd old : option (Value F)) :
  upd = VStr <$> LeadUpdate.parse_field f ->
  upd ∪ old = written_as f old.
Proof. intros ->. destruct f, old; reflexivity. Qed.

(** C6, as stated, fails: a PATCH with a well-formed identifier that
    matches no Lead and a body without update fields answers
    [{updated: false}] (status 200), not 404. *)
Lemma update_lead_absent_empty_body_counterexample :
  ~ (forall (s : Db Q) (lead_id : string) (p : LeadUpdate.t) (oid : ObjectId),
       ObjectId_new lead_id = Some oid ->
       find_one s "lead" (QId oid) = None ->
       status_of (update_lead s lead_id p).2 = 404%nat).
Proof.
  intros Hall.
  specialize (Hall empty_db id_0 no_update 0%N eq_refl eq_refl).
  vm_compute in Hall. discriminate Hall.
Qed.

(** C6, amended: a PATCH with a malformed identifier, one
    [ObjectId.is_valid] refuses, answers 400; otherwise a body without
    update fields answers [{updated: false}] whether or not the Lead
    exists; otherwise an identifier matching no Lead answers 404.  In all
    three cases the store is left as it was. *)
Theorem update_lead_outcomes s (lead_id : string) p :
  (is_valid lead_id = false ->
     update_lead s lead_id p = (s, HTTPException 400 "Invalid lead id"))
  /\ (is_valid lead_id = true -> no_fields p ->
     update_lead s lead_id p
       = (s, Ok (VDict (list_to_map [("updated", VBool false)]))))
  /\ (forall oid, ObjectId_new lead_id = Some oid -> ~ no_fields p ->
     find_one s "lead" (QId oid) = None ->
     update_lead s lead_id p = (s, HTTPException 404 "Lead not found")).
Proof.
  split; [|split].
  - intros Hv. unfold update_lead. rewrite Hv. reflexivity.
  - intros Hv He. apply model_dump_exclude_none_empty in He.
    unfold update_lead. rewrite Hv. cbn [negb]. rewrite He. reflexivity.
  - intros oid Hoid Hne Hnone.
    unfold update_lead. rewrite (ObjectId_new_is_valid _ _ Hoid), Hoid. cbn [negb].
    destruct (dict_empty _) eqn:He.
    { apply model_dump_exclude_none_empty in He. contradiction. }
    unfold update_one. unfold find_one in Hnone.
    rewrite (update_first_no_match _ _ _ Hnone). reflexivity.
Qed.

(** C10: a PATCH on an existing Lead writes exactly the fields among
    [status], [assigned_agent_id] and [assigned_manager_id] that the body
    gives with a value; a field given as [null] is handled as a field left
    out; every other field of the Lead, every other Lead and every other
    collection is left unchanged. *)
Theorem update_lead_writes_given_fields s (lead_id : string)
    (b : LeadUpdate.body) (oid : ObjectId) d :
  ObjectId_new lead_id = Some oid ->
  find_one s "lead" (QId oid) = Some d ->
  exists s' r d',
    update_lead s lead_id (LeadUpdate.parse b) = (s', r)
    /\ status_of r = 200%nat
    /\ update_lead s lead_id (LeadUpdate.parse (nulls_removed b)) = (s', r)
    /\ find_one s' "lead" (QId oid) = Some d'
    /\ d' !! "status" = written_as (LeadUpdate.body_status b) (d !! "status")
    /\ d' !! "assigned_agent_id"
       = written_as (LeadUpdate.body_assigned_agent_id b) (d !! "assigned_agent_id")
    /\ d' !! "assigned_manager_id"
       = written_as (LeadUpdate.body_assigned_manager_id b) (d !! "assigned_manager_id")
    /\ (forall k, k ≠ "status" -> k ≠ "assigned_agent_id" ->
                  k ≠ "assigned_manager_id" -> d' !! k = d !! k)
    /\ (forall o', o' ≠ oid ->
          find_one s' "lead" (QId o') = find_one s "lead" (QId o'))
    /\ (forall name, name ≠ "lead" -> coll s' name = coll s name).
Proof.
  intros Hoid Hfind.
  assert (Hnulls : LeadUpdate.parse (nulls_removed b) = LeadUpdate.parse b).
  { destruct b as [[] [] []]; reflexivity. }
  rewrite Hnulls.
  set (p := LeadUpdate.parse b).
  set (upd := LeadUpdate.model_dump_exclude_none (F := F) p).
  assert (Hfields : forall k, (upd ∪ d) !! k =
            if decide (k = "status") then written_as (LeadUpdate.body_status b) (d !! k)
            else if decide (k = "assigned_agent_id")
                 then written_as (LeadUpdate.body_assigned_agent_id b) (d !! k)
            else if decide (k = "assigned_manager_id")
                 then written_as (LeadUpdate.body_assigned_manager_id b) (d !! k)
            else d !! k).
  { intros k. rewrite lookup_union. unfold upd.
    rewrite model_dump_exclude_none_lookup.
    repeat case_decide; try (by apply parse_field_written).
    by destruct (d !! k). }
  pose proof Hfind as Hm. unfold find_one in Hm.
  apply find_some in Hm as [_ Hm].
  unfold update_lead. rewrite (ObjectId_new_is_valid _ _ Hoid), Hoid. cbn [negb].
  fold p. fold upd.
  destruct (dict_empty upd) eqn:He.
  - (* nothing to write *)
    apply model_dump_exclude_none_empty in He. unfold no_fields, p in He. cbn in He.
    destruct He as (H1 & H2 & H3).
    exists s, (Ok (VDict (list_to_map [("updated", VBool false)]))), d.
    repeat split; try reflexivity; try exact Hfind.
    + destruct (LeadUpdate.body_status b); try reflexivity; discriminate.
    + destruct (LeadUpdate.body_assigned_agent_id b); try reflexivity; discriminate.
    + destruct (LeadUpdate.body_assigned_manager_id b); try reflexivity; discriminate.
  - assert (Hm' : matches (QId oid) (upd ∪ d) = true).
    { apply matches_id_lookup, op_set_keeps_id. by apply matches_id_lookup. }
    destruct (update_first_match (QId oid) (op_set upd) _ d (upd ∪ d) Hfind eq_refl)
      as (c' & Hup & _ & Hfind').
    unfold update_one. rewrite Hup. cbn.
    exists (set_coll s "lead" c'), (Ok (VDict (list_to_map [("updated", VBool true)]))),
      (upd ∪ d).
    split; [reflexivity|]. split; [reflexivity|]. split; [reflexivity|].
    split; [unfold find_one; rewrite coll_set_coll_eq; by apply Hfind'|].
    split; [by rewrite Hfields|]. split; [by rewrite Hfields|].
    split; [by rewrite Hfields|].
    split.
    { intros k H1 H2 H3. rewrite Hfields. by repeat case_decide. }
    split.
    { intros o' Hne. unfold find_one. rewrite coll_set_coll_eq.
      eapply update_first_frame; [exact Hup|].
      intros x x' Hx [= <-].
      assert (Hx' : matches (QId oid) (upd ∪ x) = true).
      { apply matches_id_lookup, op_set_keeps_id. by apply matches_id_lookup. }
      apply matches_id_lookup in Hx, Hx'.
      split; apply not_true_is_false; intros Ho%matches_id_lookup; congruence. }
    intros name Hne. by rewrite coll_set_coll_ne.
Qed.

End LeadUpdateProps.

(** ** Every Lead keeps a follow-up list

    Appending a follow-up asks for a Lead whose [follow_up_ids] is a list.
    Every Lead written through the handlers is of that shape. *)

Section LeadShape.
Context {F : Type} `{PyFloat F}.
Implicit Types (s : Db F) (d : Doc F).

Lemma leads_wf_empty : leads_wf (F := F) empty_db.
Proof. apply Forall_nil_2. Qed.

Lemma update_first_Forall (P : Doc F -> Prop) q f (c c' : list (Doc F)) n :
  (forall d d', P d -> f d = Some d' -> P d') ->
  Forall P c -> update_first q f c = Some (c', n) -> Forall P c'.
Proof.
  intros Hf Hc. revert c' n. induction Hc as [|x c Hx Hc IH]; cbn; intros c' n.
  - intros [= <- <-]. constructor.
  - destruct (matches q x).
    + destruct (f x) as [x'|] eqn:Efx; [|discriminate].
      intros [= <- <-]. constructor; eauto.
    + destruct (update_first q f c) as [[c'' m]|]; [|discriminate].
      intros [= <- <-]. constructor; eauto.
Qed.

Lemma update_one_leads_wf s s' q f n :
  (forall d d', has_follow_up_list d -> f d = Some d' -> has_follow_up_list d') ->
  leads_wf s -> update_one s "lead" q f = Some (s', n) -> leads_wf s'.
Proof.
  intros Hf Hwf. unfold update_one.
  destruct (update_first q f (coll s "lead")) as [[c' m]|] eqn:Eu; [|discriminate].
  destruct m; intros [= <- <-]; [exact Hwf|].
  unfold leads_wf. rewrite coll_set_coll_eq.
  eapply update_first_Forall; eauto.
Qed.

Lemma create_document_leads_wf s name data :
  name ≠ "lead" -> leads_wf s -> leads_wf (create_document s name data).1.
Proof.
  intros Hne Hwf. unfold leads_wf. by rewrite create_document_other.
Qed.

Lemma create_lead_leads_wf s p : leads_wf s -> leads_wf (create_lead s p).1.
Proof.
  intros Hwf. unfold create_lead.
  match goal with |- context [create_document s "lead" ?data] =>
    pose proof (create_document_same s "lead" data) as Hsame;
    destruct (create_document s "lead" data) as [s1 new_id] end.
  cbn in Hsame |- *. unfold leads_wf. rewrite Hsame.
  apply Forall_app. split; [exact Hwf|].
  apply Forall_singleton. exists []. reflexivity.
Qed.

Lemma update_lead_leads_wf s lead_id p :
  leads_wf s -> leads_wf (update_lead s lead_id p).1.
Proof.
  intros Hwf. unfold update_lead.
  destruct (negb (is_valid lead_id)); [exact Hwf|].
  destruct (dict_empty _); [exact Hwf|].
  destruct (ObjectId_new lead_id) as [oid|]; [|exact Hwf].
  destruct (update_one _ _ _ _) as [[s1 n]|] eqn:Eu; [|exact Hwf].
  assert (leads_wf s1).
  { eapply update_one_leads_wf; [|exact Hwf|exact Eu].
    intros d d' [l Hl] [= <-]. exists l.
    rewrite lookup_union_r; [exact Hl|].
    rewrite model_dump_exclude_none_lookup. reflexivity. }
  by destruct (Nat.eqb n 0).
Qed.

Lemma create_followup_leads_wf s p :
  leads_wf s -> leads_wf (create_followup s p).1.
Proof.
  intros Hwf. unfold create_followup.
  destruct (negb (is_valid _)); [exact Hwf|].
  destruct (ObjectId_new _) as [oid|]; [|exact Hwf].
  destruct (falsy _); [exact Hwf|].
  pose proof (create_document_leads_wf s "followup" (FollowUp.model_dump p)
                ltac:(discriminate) Hwf) as Hwf1.
  destruct (create_document s "followup" (FollowUp.model_dump p)) as [s1 new_id].
  cbn in Hwf1.
  destruct (update_one _ _ _ _) as [[s2 n]|] eqn:Eu; [|exact Hwf1].
  eapply update_one_leads_wf; [|exact Hwf1|exact Eu].
  intros d d' [l Hl]. unfold op_push. rewrite Hl. intros [= <-].
  eexists. apply lookup_insert_eq.
Qed.

Lemma create_quote_leads_wf s p :
  leads_wf s -> leads_wf (create_quote s p).1.
Proof.
  intros Hwf. unfold create_quote.
  destruct (negb (is_valid _)); [exact Hwf|].
  destruct (negb (Quotation.valid _)); [exact Hwf|].
  match goal with |- context [create_document s "quotation" ?data] =>
    pose proof (create_document_leads_wf s "quotation" data
                  ltac:(discriminate) Hwf) as Hwf1;
    destruct (create_document s "quotation" data) as [s1 new_id] end.
  exact Hwf1.
Qed.

Lemma leads_wf_found s oid d :
  leads_wf s -> find_one s "lead" (QId oid) = Some d -> has_follow_up_list d.
Proof.
  intros Hwf [Hin _]%find_one_id_Some.
  unfold leads_wf in Hwf. rewrite Forall_forall in Hwf. by apply Hwf.
Qed.

Lemma serve_leads_wf (py_repr : Value F -> string) s (r : Request F) :
  leads_wf s -> leads_wf (serve py_repr s r).1.
Proof.
  intros Hwf. destruct r as [p | p | p | p | p | r]; cbn [serve].
  - unfold create_community.
    pose proof (create_document_leads_wf s "community" (Community.model_dump p)
                  ltac:(discriminate) Hwf) as Hwf1.
    by destruct (create_document s "community" (Community.model_dump p)).
  - unfold create_tower.
    pose proof (create_document_leads_wf s "tower" (Tower.model_dump p)
                  ltac:(discriminate) Hwf) as Hwf1.
    by destruct (create_document s "tower" (Tower.model_dump p)).
  - unfold create_flat.
    pose proof (create_document_leads_wf s "flat" (Flat.model_dump p)
                  ltac:(discriminate) Hwf) as Hwf1.
    by destruct (create_document s "flat" (Flat.model_dump p)).
  - unfold create_floorplan.
    pose proof (create_document_leads_wf s "floorplan" (FloorPlan.model_dump p)
                  ltac:(discriminate) Hwf) as Hwf1.
    by destruct (create_document s "floorplan" (FloorPlan.model_dump p)).
  - by apply create_lead_leads_wf.
  - destruct r as [a | i p | p | i | p | i]; cbn [handle fst]; try exact Hwf.
    + by apply update_lead_leads_wf.
    + by apply create_followup_leads_wf.
    + by apply create_quote_leads_wf.
Qed.

Lemma reachable_leads_wf (py_repr : Value F -> string) s :
  reachable py_repr s -> leads_wf s.
Proof.
  induction 1 as [s He | s r _ IH].
  - unfold leads_wf, coll. rewrite He, lookup_empty. apply Forall_nil_2.
  - by apply serve_leads_wf.
Qed.

End LeadShape.

(** ** Quotation creation *)

(** With a well-formed [lead_id] and a price that passes the schema, the
    Quotation is stored whatever the Lead collection holds. *)
Lemma create_quote_persists {F : Type} `{PyFloat F} (s : Db F)
    (p : QuotationCreate.t F) :
  is_valid (QuotationCreate.lead_id p) = true ->
  fge0 (q_total (compute_quote (QuotationCreate.inputs p))) = true ->
  exists s' q,
    create_quote s p
      = (s', Ok (VDict (list_to_map
                   [("id", VStr (oid_str (next_oid s)));
                    ("total", VFloat (q_total (compute_quote (QuotationCreate.inputs p))))])))
    /\ coll s' "quotation" = coll s "quotation" ++ [q]
    /\ q !! "lead_id" = Some (VStr (QuotationCreate.lead_id p))
    /\ coll s' "lead" = coll s "lead".
Proof.
  intros Hv Hp. unfold create_quote. rewrite Hv. cbn [negb].
  unfold Quotation.valid. cbn [Quotation.generated_price]. rewrite Hp. cbn [negb].
  match goal with |- context [create_document s "quotation" ?data] =>
    pose proof (create_document_same s "quotation" data) as Hsame;
    pose proof (create_document_other s "quotation" "lead" data
                  ltac:(discriminate)) as Hother;
    pose proof (create_document_id s "quotation" data) as Hid;
    destruct (create_document s "quotation" data) as [s1 new_id] end.
  cbn [fst snd] in Hsame, Hother, Hid. subst new_id.
  eexists _, _. split; [reflexivity|]. split; [exact Hsame|].
  split; [|exact Hother].
  rewrite lookup_insert_ne by discriminate.
  rewrite lookup_insert_ne by discriminate. reflexivity.
Qed.

(** C1, evaluated where it fails: on a store without any Lead,
    POST /api/quotations with the well-formed identifier [id_0] stores a
    Quotation and answers [{id, total}]; [create_quote] checks the shape of
    [lead_id] and never looks the Lead up. *)
Theorem create_quote_without_lead :
  ObjectId_new id_0 = Some 0%N
  /\ find_one (F := float) empty_db "lead" (QId 0%N) = None
  /\ exists s',
       create_quote empty_db (quote_for id_0)
         = (s', Ok (VDict (list_to_map
                      [("id", VStr id_1); ("total", VFloat 2011900%float)])))
       /\ length (coll s' "quotation") = 1%nat.
Proof.
  split; [reflexivity|]. split; [reflexivity|].
  eexists. split; [vm_compute; reflexivity|].
  vm_compute. reflexivity.
Qed.

(** ** Serialization of stored records *)

Section SerializationProps.
Context {F : Type}.
Variable py_repr : Value F -> string.
Implicit Types (s : Db F) (d x : Doc F) (v : Value F).

Lemma convert_item_lookup_eq k v d :
  d !! k = Some v -> convert_item k v d !! k = Some (converted v).
Proof.
  intros Hk. unfold convert_item.
  destruct v; cbn; rewrite ?lookup_insert_eq; done.
Qed.

Lemma convert_item_lookup_ne k k' v d :
  k ≠ k' -> convert_item k v d !! k' = d !! k'.
Proof.
  intros Hne. unfold convert_item.
  destruct v; cbn; rewrite ?lookup_insert_ne by done; done.
Qed.

(** The loop of [to_serializable], run over part of the dict it rewrites. *)
Lemma convert_loop_lookup (b m : Doc F) :
  m ⊆ b ->
  forall k, map_fold convert_item b m !! k =
            match m !! k with Some v => Some (converted v) | None => b !! k end.
Proof.
  revert m.
  refine (map_fold_weak_ind
            (fun r m => m ⊆ b -> forall k,
               r !! k = match m !! k with
                        | Some v => Some (converted v)
                        | None => b !! k
                        end) convert_item b _ _).
  - intros _ k. by rewrite lookup_empty.
  - intros i v m r Hi IH Hsub k.
    assert (Hm : m ⊆ b).
    { etrans; [|exact Hsub]. by apply insert_subseteq. }
    assert (Hb : b !! i = Some v).
    { eapply lookup_weaken; [|exact Hsub]. apply lookup_insert_eq. }
    specialize (IH Hm).
    destruct (decide (i = k)) as [<-|Hne].
    + rewrite lookup_insert_eq. apply convert_item_lookup_eq.
      rewrite IH, Hi. exact Hb.
    + rewrite lookup_insert_ne by done.
      rewrite convert_item_lookup_ne by done. apply IH.
Qed.

Lemma to_serializable_lookup x k :
  to_serializable py_repr x !! k =
    if decide (k = "_id") then None
    else if decide (k = "id") then
      match x !! "_id" with
      | Some v => Some (VStr (py_str py_repr v))
      | None => converted <$> x !! "id"
      end
    else converted <$> x !! k.
Proof.
  unfold to_serializable. destruct (dict_empty x) eqn:He.
  - apply Nat.eqb_eq, map_size_empty_iff in He. subst x.
    rewrite !lookup_empty. by repeat case_decide.
  - rewrite convert_loop_lookup by done.
    destruct (x !! "_id") as [v|] eqn:Eid.
    + repeat case_decide; subst.
      * rewrite lookup_insert_ne by done. by rewrite lookup_delete_eq.
      * by rewrite lookup_insert_eq.
      * rewrite lookup_insert_ne by done. rewrite lookup_delete_ne by done.
        by destruct (x !! k).
    + repeat case_decide; subst.
      * by rewrite Eid.
      * by destruct (x !! "id").
      * by destruct (x !! k).
Qed.

Lemma insert_desc_elem (x d : Doc F) (l : list (Doc F)) :
  x ∈ insert_desc d l -> x = d \/ x ∈ l.
Proof.
  induction l as [|y l IH]; cbn.
  - intros ->%list_elem_of_singleton. by left.
  - destruct (newer_or_same d y).
    + intros [->|Hin]%elem_of_cons; [by left | by right].
    + intros [->|Hin]%elem_of_cons; [right; left|].
      destruct (IH Hin) as [->|Hl]; [by left | right; by right].
Qed.

Lemma sort_created_at_desc_elem (x : Doc F) (l : list (Doc F)) :
  x ∈ sort_created_at_desc l -> x ∈ l.
Proof.
  induction l as [|y l IH]; cbn; [done|].
  intros [->|Hin]%insert_desc_elem; [left | right; by apply IH].
Qed.

Lemma sorted_find_elem s name q x :
  x ∈ sort_created_at_desc (find s name q) -> x ∈ coll s name.
Proof.
  intros Hin%sort_created_at_desc_elem. unfold find in Hin.
  apply list_elem_of_In, filter_In in Hin as [Hin _]. by apply list_elem_of_In.
Qed.

Lemma serialized_elem d (l : list (Doc F)) :
  VDict d ∈ (VDict <$> (to_serializable py_repr <$> l) : list (Value F)) ->
  exists x, x ∈ l /\ d = to_serializable py_repr x.
Proof.
  intros (y & [= ->] & (x & -> & Hx)%list_elem_of_fmap)%list_elem_of_fmap.
  eauto.
Qed.


End SerializationProps.

(** ** What the handlers write

    No handler stores a reference anywhere but in [_id]. *)

Section PlainStore.
Context {F : Type} `{PyFloat F}.
Variable py_repr : Value F -> string.
Implicit Types (s : Db F) (d : Doc F) (v : Value F).















End PlainStore.

(** ** Identifiers are never reused

    Every stored record carries an [_id] the generator has drawn, and no
    update changes it. *)

Section FreshIds.
Context {F : Type} `{PyFloat F}.
Variable py_repr : Value F -> string.
Implicit Types (s : Db F) (d x : Doc F).

Lemma update_one_other s s' name name' q f n :
  update_one s name q f = Some (s', n) -> name ≠ name' ->
  coll s' name' = coll s name'.
Proof.
  unfold update_one.
  destruct (update_first q f (coll s name)) as [[c' m]|]; [|discriminate].
  destruct m; intros [= <- <-] Hne; [reflexivity|]. by apply coll_set_coll_ne.
Qed.

Lemma update_first_ids q (f : Doc F -> option (Doc F)) (c c' : list (Doc F)) n :
  (forall d d', f d = Some d' -> d' !! "_id" = d !! "_id") ->
  update_first q f c = Some (c', n) -> ids_of c' = ids_of c.
Proof.
  intros Hf. revert c' n. induction c as [|x c IH]; cbn; intros c' n.
  - intros [= <- <-]. reflexivity.
  - destruct (matches q x).
    + destruct (f x) as [x'|] eqn:Efx; [|discriminate].
      intros [= <- <-]. cbn. f_equal. by apply Hf.
    + destruct (update_first q f c) as [[c'' m]|]; [|discriminate].
      intros [= <- <-]. cbn. f_equal. by eapply IH.
Qed.

Lemma update_one_ids s s' name q (f : Doc F -> option (Doc F)) n :
  (forall d d', f d = Some d' -> d' !! "_id" = d !! "_id") ->
  update_one s name q f = Some (s', n) ->
  ids_of (coll s' name) = ids_of (coll s name)
  /\ next_oid s' = next_oid s /\ clock s' = clock s.
Proof.
  intros Hf. unfold update_one.
  destruct (update_first q f (coll s name)) as [[c' m]|] eqn:Eu; [|discriminate].
  destruct m; intros [= <- <-]; [done|].
  rewrite coll_set_coll_eq. split; [by eapply update_first_ids|done].
Qed.

Lemma op_set_id (p : LeadUpdate.t) d d' :
  op_set (LeadUpdate.model_dump_exclude_none p) d = Some d' ->
  d' !! "_id" = d !! "_id".
Proof.
  intros [= <-]. rewrite lookup_union_r; [reflexivity|].
  by rewrite model_dump_exclude_none_lookup.
Qed.

Lemma op_push_id (k : string) (v : Value F) d d' :
  k ≠ "_id" -> op_push k v d = Some d' -> d' !! "_id" = d !! "_id".
Proof.
  intros Hk. unfold op_push.
  destruct (d !! k) as [[ | | | | | | l | ]|]; try discriminate;
    intros [= <-]; by rewrite lookup_insert_ne.
Qed.

Lemma create_document_ids_fresh s name (data : Doc F) :
  ids_fresh s -> ids_fresh (create_document s name data).1.
Proof.
  intros Hs name' d Hin.
  change (next_oid (create_document s name data).1) with (next_oid s + 1)%N.
  destruct (decide (name = name')) as [<-|Hne].
  - rewrite create_document_same in Hin.
    apply elem_of_app in Hin as [Hin|Hin%list_elem_of_singleton].
    + destruct (Hs _ _ Hin) as (o & Ho & Hlt). exists o. split; [done | lia].
    + subst d. exists (next_oid s). rewrite lookup_insert_eq. split; [done | lia].
  - rewrite create_document_other in Hin by done.
    destruct (Hs _ _ Hin) as (o & Ho & Hlt). exists o. split; [done | lia].
Qed.

Lemma update_one_ids_fresh s s' name q (f : Doc F -> option (Doc F)) n :
  (forall d d', f d = Some d' -> d' !! "_id" = d !! "_id") ->
  ids_fresh s -> update_one s name q f = Some (s', n) -> ids_fresh s'.
Proof.
  intros Hf Hs Hu.
  destruct (update_one_ids _ _ _ _ _ _ Hf Hu) as (_ & Hn & _).
  intros name' d Hin. rewrite Hn.
  destruct (decide (name = name')) as [<-|Hne].
  - revert Hu Hin. unfold update_one.
    destruct (update_first q f (coll s name)) as [[c' m]|] eqn:Eu; [|discriminate].
    destruct m; intros [= <- _]; [by apply Hs|].
    rewrite coll_set_coll_eq. intros Hin.
    assert (Hc : Forall (fun d => exists o, d !! "_id" = Some (VOid o)
                                            /\ (o < next_oid s)%N) (coll s name)).
    { apply Forall_forall. intros y Hy. by eapply Hs. }
    assert (HfP : forall y y',
              (exists o, y !! "_id" = Some (VOid o) /\ (o < next_oid s)%N) ->
              f y = Some y' ->
              exists o, y' !! "_id" = Some (VOid o) /\ (o < next_oid s)%N).
    { intros y y' (o & Ho & Hlt) Hy. exists o. by rewrite (Hf _ _ Hy). }
    pose proof (update_first_Forall _ q f _ _ _ HfP Hc Eu) as Hc'.
    rewrite Forall_forall in Hc'. by apply Hc'.
  - rewrite (update_one_other _ _ _ name' _ _ _ Hu) in Hin by done.
    by eapply Hs.
Qed.

Lemma serve_ids_fresh s (r : Request F) :
  ids_fresh s -> ids_fresh (serve py_repr s r).1.
Proof.
  intros Hs. destruct r as [p | p | p | p | p | r]; cbn [serve];
    [ unfold create_community | unfold create_tower | unfold create_flat
    | unfold create_floorplan | unfold create_lead | ];
    try (match goal with |- context [create_document s ?n ?data] =>
           pose proof (create_document_ids_fresh s n data Hs) as H1;
           destruct (create_document s n data) as [s1 new_id]; exact H1
         end).
  destruct r as [a | i p | p | i | p | i]; cbn [handle fst]; try exact Hs.
  - unfold update_lead.
    destruct (negb (is_valid i)); [exact Hs|].
    destruct (dict_empty _); [exact Hs|].
    destruct (ObjectId_new i) as [oid|]; [|exact Hs].
    destruct (update_one _ _ _ _) as [[s1 n]|] eqn:Eu; [|exact Hs].
    assert (ids_fresh s1).
    { eapply update_one_ids_fresh; [|exact Hs|exact Eu]. apply op_set_id. }
    by destruct (Nat.eqb n 0).
  - unfold create_followup.
    destruct (negb (is_valid _)); [exact Hs|].
    destruct (ObjectId_new _) as [oid|]; [|exact Hs].
    destruct (falsy _); [exact Hs|].
    pose proof (create_document_ids_fresh s "followup" (FollowUp.model_dump p) Hs)
      as Hs1.
    destruct (create_document s "followup" (FollowUp.model_dump p)) as [s1 new_id].
    cbn [fst] in Hs1.
    destruct (update_one _ _ _ _) as [[s2 n]|] eqn:Eu; [|exact Hs1].
    eapply update_one_ids_fresh; [|exact Hs1|exact Eu].
    intros d d'. by apply op_push_id.
  - unfold create_quote.
    destruct (negb (is_valid _)); [exact Hs|].
    destruct (negb (Quotation.valid _)); [exact Hs|].
    match goal with |- context [create_document s "quotation" ?data] =>
      pose proof (create_document_ids_fresh s "quotation" data Hs) as H1;
      destruct (create_document s "quotation" data) as [s1 new_id]; exact H1
    end.
Qed.

Lemma reachable_ids_fresh s : reachable py_repr s -> ids_fresh s.
Proof.
  induction 1 as [s He | s r _ IH].
  - intros name d. unfold coll. rewrite He, lookup_empty. cbn.
    by intros ?%elem_of_nil.
  - by apply serve_ids_fresh.
Qed.

End FreshIds.

(** ** Leads and follow-ups hold text only

    The fields the handlers store in a Lead or in a FollowUp are strings,
    nulls, dates and lists of strings: the JSON encoder renders each of
    them, so the lists of Leads and of FollowUps are always answered. *)

Section TextStore.
Context {F : Type} `{PyFloat F}.
Variable py_repr : Value F -> string.
Implicit Types (s : Db F) (d x : Doc F) (v : Value F).

Lemma encodable_dict d :
  encodable (VDict d) = true <-> forall k v, d !! k = Some v -> encodable v = true.
Proof.
  change (encodable (VDict d))
    with (map_fold (fun (_ : string) (w : Value F) ok => encodable w && ok) true d).
  revert d.
  refine (map_fold_weak_ind
            (fun r (m : Doc F) =>
               r = true <-> forall k v, m !! k = Some v -> encodable v = true)
            (fun (_ : string) (w : Value F) ok => encodable w && ok) true _ _).
  - split; [intros _ k v; by rewrite lookup_empty | done].
  - intros i w m r Hi IH. rewrite andb_true_iff, IH. split.
    + intros [Hx Hm] k v. destruct (decide (i = k)) as [<-|Hne].
      * rewrite lookup_insert_eq. by intros [= <-].
      * rewrite lookup_insert_ne by done. apply Hm.
    + intros Hall. split.
      * apply (Hall i). apply lookup_insert_eq.
      * intros k v Hk. apply (Hall k). rewrite lookup_insert_ne; [done|].
        intros ->. congruence.
Qed.

Lemma is_str_value_encodable v : is_str_value v = true -> encodable v = true.
Proof. by destruct v. Qed.

Lemma is_text_encodable v : is_text v = true -> encodable v = true.
Proof.
  destruct v as [ | | | | | | l | ]; try done. cbn [is_text encodable].
  rewrite !forallb_forall. intros Hl e He. by apply is_str_value_encodable, Hl.
Qed.

Lemma is_text_converted v : is_text v = true -> converted v = v.
Proof.
  destruct v as [ | | | | | | l | ]; try done. cbn [is_text converted].
  intros Hl. f_equal. induction l as [|e l IH]; [reflexivity|].
  cbn in Hl. apply andb_prop in Hl as [He Hl]. cbn. rewrite IH by exact Hl.
  by destruct e.
Qed.

Lemma text_doc_encodable d :
  text_doc d -> encodable (VDict (to_serializable py_repr d)) = true.
Proof.
  intros Hd. apply encodable_dict. intros k v.
  rewrite to_serializable_lookup.
  assert (Hconv : forall k' w, d !! k' = Some w -> k' ≠ "_id" ->
                               encodable (converted w) = true).
  { intros k' w Hw Hk'. rewrite is_text_converted by (by eapply Hd).
    apply is_text_encodable. by eapply Hd. }
  repeat case_decide; subst; [discriminate| |].
  - destruct (d !! "_id") as [w|].
    + by intros [= <-].
    + destruct (d !! "id") as [w|] eqn:Ew; [|discriminate].
      intros [= <-]. by eapply Hconv.
  - destruct (d !! k) as [w|] eqn:Ew; [|discriminate].
    intros [= <-]. by eapply Hconv.
Qed.

Lemma serialized_encodable (l : list (Doc F)) :
  Forall text_doc l -> encodable (serialized py_repr l) = true.
Proof.
  intros Hl. unfold serialized. cbn [encodable].
  apply forallb_forall. intros e He. apply list_elem_of_In in He.
  apply list_elem_of_fmap in He as (y & -> & Hy).
  apply list_elem_of_fmap in Hy as (x & -> & Hx).
  apply text_doc_encodable. rewrite Forall_forall in Hl. by apply Hl.
Qed.

Lemma text_opt_str (o : option string) : is_text (opt_str (F := F) o) = true.
Proof. by destruct o. Qed.

Lemma text_strs (l : list string) : is_text (strs (F := F) l) = true.
Proof. unfold strs. cbn. by induction l. Qed.

Lemma text_list_to_map (l : list (string * Value F)) :
  Forall (fun kv => is_text kv.2 = true) l ->
  forall k v, (list_to_map l : Doc F) !! k = Some v -> is_text v = true.
Proof.
  intros Hl k v Hk%elem_of_list_to_map_2.
  rewrite Forall_forall in Hl. exact (Hl (k, v) Hk).
Qed.

Lemma create_document_text s name (data : Doc F) :
  leads_followups_text s ->
  (name = "lead" \/ name = "followup" ->
   forall k v, data !! k = Some v -> is_text v = true) ->
  leads_followups_text (create_document s name data).1.
Proof.
  intros Hs Hdata name' d Hname Hin.
  destruct (decide (name = name')) as [<-|Hne].
  - rewrite create_document_same in Hin.
    apply elem_of_app in Hin as [Hin|Hin%list_elem_of_singleton]; [by eapply Hs|].
    subst d. intros k v Hk Hid.
    rewrite lookup_insert_ne in Hk by done.
    destruct (decide (k = "created_at")) as [->|Hc].
    + rewrite lookup_insert_eq in Hk. by injection Hk as <-.
    + rewrite lookup_insert_ne in Hk by done. by eapply Hdata.
  - rewrite create_document_other in Hin by done. by eapply Hs.
Qed.

Lemma update_one_text s s' name q f n :
  leads_followups_text s ->
  (forall d d', text_doc d -> f d = Some d' -> text_doc d') ->
  update_one s name q f = Some (s', n) -> leads_followups_text s'.
Proof.
  intros Hs Hf. unfold update_one.
  destruct (update_first q f (coll s name)) as [[c' m]|] eqn:Eu; [|discriminate].
  destruct m; intros [= <- <-]; [exact Hs|].
  intros name' d Hname Hin.
  destruct (decide (name = name')) as [<-|Hne].
  - rewrite coll_set_coll_eq in Hin.
    assert (Hc : Forall text_doc (coll s name)).
    { apply Forall_forall. intros x Hx. by eapply Hs. }
    pose proof (update_first_Forall text_doc q f _ _ _ Hf Hc Eu) as Hc'.
    rewrite Forall_forall in Hc'. by apply Hc'.
  - rewrite coll_set_coll_ne in Hin by done. by eapply Hs.
Qed.

Lemma op_set_text (p : LeadUpdate.t) d d' :
  text_doc d -> op_set (LeadUpdate.model_dump_exclude_none p) d = Some d' ->
  text_doc d'.
Proof.
  intros Hd [= <-] k v Hk Hid.
  apply lookup_union_Some_raw in Hk as [Hk|[_ Hk]]; [|by eapply Hd].
  rewrite model_dump_exclude_none_lookup in Hk.
  repeat case_decide; try discriminate;
    match type of Hk with VStr <$> ?o = _ => destruct o end;
    try discriminate; by injection Hk as <-.
Qed.

Lemma op_push_text (new_id : string) d d' :
  text_doc d -> op_push "follow_up_ids" (VStr new_id) d = Some d' -> text_doc d'.
Proof.
  intros Hd. unfold op_push.
  destruct (d !! "follow_up_ids") as [w|] eqn:Ew.
  - destruct w as [ | | | | | | l | ]; try discriminate. intros [= <-] k v Hk Hid.
    destruct (decide (k = "follow_up_ids")) as [->|Hne].
    + rewrite lookup_insert_eq in Hk. injection Hk as <-.
      pose proof (Hd _ _ Ew ltac:(done)) as Hl. cbn in Hl |- *.
      rewrite forallb_app, Hl. reflexivity.
    + rewrite lookup_insert_ne in Hk by done. by eapply Hd.
  - intros [= <-] k v Hk Hid.
    destruct (decide (k = "follow_up_ids")) as [->|Hne].
    + rewrite lookup_insert_eq in Hk. by injection Hk as <-.
    + rewrite lookup_insert_ne in Hk by done. by eapply Hd.
Qed.

Ltac text_fields :=
  repeat constructor; cbn;
  first [ apply text_opt_str | apply text_strs | reflexivity ].

Lemma handle_text s (r : IdRequest F) :
  leads_followups_text s -> leads_followups_text (handle py_repr s r).1.
Proof.
  intros Hs. destruct r as [a | i p | p | i | p | i]; cbn; try exact Hs.
  - unfold update_lead.
    destruct (negb (is_valid i)); [exact Hs|].
    destruct (dict_empty _); [exact Hs|].
    destruct (ObjectId_new i) as [oid|]; [|exact Hs].
    destruct (update_one _ _ _ _) as [[s1 n]|] eqn:Eu; [|exact Hs].
    assert (leads_followups_text s1).
    { eapply update_one_text; [exact Hs| |exact Eu]. apply op_set_text. }
    by destruct (Nat.eqb n 0).
  - unfold create_followup.
    destruct (negb (is_valid _)); [exact Hs|].
    destruct (ObjectId_new _) as [oid|]; [|exact Hs].
    destruct (falsy _); [exact Hs|].
    assert (Hs1 : leads_followups_text
                    (create_document s "followup" (FollowUp.model_dump p)).1).
    { apply create_document_text; [exact Hs|]. intros _.
      apply text_list_to_map. text_fields. }
    destruct (create_document s "followup" (FollowUp.model_dump p)) as [s1 new_id].
    cbn in Hs1.
    destruct (update_one _ _ _ _) as [[s2 n]|] eqn:Eu; [|exact Hs1].
    eapply update_one_text; [exact Hs1| |exact Eu]. apply op_push_text.
  - unfold create_quote.
    destruct (negb (is_valid _)); [exact Hs|].
    destruct (negb (Quotation.valid _)); [exact Hs|].
    match goal with |- context [create_document s "quotation" ?data] =>
      assert (Hs1 : leads_followups_text (create_document s "quotation" data).1);
      [|destruct (create_document s "quotation" data) as [s1 new_id]; exact Hs1]
    end.
    apply create_document_text; [exact Hs|]. intros Hname. by destruct Hname.
Qed.

Lemma serve_text s (r : Request F) :
  leads_followups_text s -> leads_followups_text (serve py_repr s r).1.
Proof.
  intros Hs. destruct r as [p | p | p | p | p | r]; cbn [serve];
    [ unfold create_community | unfold create_tower | unfold create_flat
    | unfold create_floorplan | unfold create_lead | by apply handle_text ];
    match goal with |- context [create_document s ?name ?data] =>
      assert (Hs1 : leads_followups_text (create_document s name data).1);
      [|destruct (create_document s name data) as [s1 new_id]; exact Hs1]
    end;
    (apply create_document_text; [exact Hs|]);
    intros Hname; try (by destruct Hname).
  apply text_list_to_map. text_fields.
Qed.

Lemma reachable_text s : reachable py_repr s -> leads_followups_text s.
Proof.
  induction 1 as [s He | s r _ IH].
  - intros name d _. unfold coll. rewrite He, lookup_empty. cbn.
    by intros ?%elem_of_nil.
  - by apply serve_text.
Qed.

Lemma sorted_find_encodable s name q :
  name = "lead" \/ name = "followup" -> reachable py_repr s ->
  encodable (serialized py_repr (sort_created_at_desc (find s name q))) = true.
Proof.
  intros Hname Hs%reachable_text. apply serialized_encodable.
  apply Forall_forall. intros x Hx%sorted_find_elem. by eapply Hs.
Qed.

Lemma list_leads_status s (a : option string) :
  reachable py_repr s -> status_of (list_leads py_repr s a) = 200%nat.
Proof.
  intros Hs. unfold list_leads. cbn [status_of].
  rewrite sorted_find_encodable; [reflexivity | by left | exact Hs].
Qed.

Lemma list_followups_status s (i : string) :
  reachable py_repr s ->
  status_of (list_followups py_repr s i) = (if is_valid i then 200 else 400)%nat.
Proof.
  intros Hs. unfold list_followups. destruct (is_valid i); [|reflexivity].
  cbn [negb status_of].
  rewrite sorted_find_encodable; [reflexivity | by right | exact Hs].
Qed.

End TextStore.

(** ** Identifier checks across the endpoints *)

(** C2, as stated, fails: GET /api/leads uses [assigned_to] in its filter
    without a well-formedness check, so a malformed value is answered with
    a list (status 200), not with 400. *)
Lemma list_leads_malformed_counterexample :
  ~ (forall (s : Db Q) (r : IdRequest Q),
       is_valid (supplied_id r) = false ->
       status_of (handle no_repr s r).2 = 400%nat).
Proof.
  intros Hall.
  specialize (Hall empty_db (GetLeads "not-an-id") eq_refl).
  vm_compute in Hall. discriminate Hall.
Qed.

(** C2, amended: every endpoint that takes a Lead identifier (the path
    parameter of PATCH /api/leads, of GET /api/followups and of
    GET /api/quotations/by-lead, the [lead_id] of the bodies of
    POST /api/followups and POST /api/quotations) answers one that
    [ObjectId.is_valid] refuses with 400 and leaves the store as it was;
    GET /api/leads takes any [assigned_to] string as a filter value and
    answers with a list, with status 200 on a store the handlers have
    built.  No such identifier leads to a 500. *)
Theorem malformed_identifier_outcome {F : Type} `{PyFloat F}
    (py_repr : Value F -> string) (s : Db F) (r : IdRequest F) :
  is_valid (supplied_id r) = false ->
  match r with
  | GetLeads _ =>
      exists l, handle py_repr s r = (s, Ok (VList l))
        /\ (reachable py_repr s -> status_of (handle py_repr s r).2 = 200%nat)
  | _ =>
      handle py_repr s r = (s, HTTPException 400 "Invalid lead id")
      /\ status_of (handle py_repr s r).2 = 400%nat
  end.
Proof.
  intros Hv. destruct r as [a | i p | p | i | p | i];
    cbn [supplied_id] in Hv; cbn [handle snd].
  - eexists. split; [reflexivity|]. apply list_leads_status.
  - unfold update_lead. rewrite Hv. by split.
  - unfold create_followup. rewrite Hv. by split.
  - unfold list_followups. rewrite Hv. by split.
  - unfold create_quote. rewrite Hv. by split.
  - unfold quotes_by_lead. rewrite Hv. by split.
Qed.

(** ** What the read endpoints return *)


(** ** The theorems at concrete requests *)

Lemma one_lead_db_reachable : reachable no_repr one_lead_db.
Proof.
  apply (reachable_serve no_repr empty_db (PostLead asha)).
  apply reachable_empty. reflexivity.
Defined.

Lemma create_followup_missing_lead_witness :
  create_followup one_lead_db (call_about id_0)
    = (one_lead_db, HTTPException 404 "Lead not found").
Proof.
  apply (create_followup_missing_lead one_lead_db (call_about id_0) 0%N);
    vm_compute; reflexivity.
Defined.

Lemma create_followup_appends_id_witness :
  exists s' new_id fu,
    create_followup one_lead_db (call_about id_1)
      = (s', Ok (VDict (list_to_map [("id", VStr new_id)])))
    /\ coll s' "followup" = coll one_lead_db "followup" ++ [fu]
    /\ fu !! "_id" = Some (VOid (next_oid one_lead_db))
    /\ new_id = oid_str (next_oid one_lead_db)
    /\ fu !! "lead_id" = Some (VStr (FollowUp.lead_id (call_about id_1)))
    /\ find_one s' "lead" (QId 1%N)
       = Some (<["follow_up_ids" := VList ([] ++ [VStr new_id])]> asha_doc)
    /\ length ([] ++ [VStr new_id : Value Q]) = 1%nat.
Proof.
  apply (create_followup_appends_id one_lead_db (call_about id_1) 1%N asha_doc []);
    vm_compute; reflexivity.
Defined.

Lemma update_lead_outcomes_witness :
  update_lead one_lead_db "lead-1" status_update
    = (one_lead_db, HTTPException 400 "Invalid lead id")
  /\ update_lead one_lead_db id_0 no_update
     = (one_lead_db, Ok (VDict (list_to_map [("updated", VBool false)])))
  /\ update_lead one_lead_db id_0 status_update
     = (one_lead_db, HTTPException 404 "Lead not found").
Proof.
  split; [|split].
  - apply (proj1 (update_lead_outcomes one_lead_db "lead-1" status_update)).
    reflexivity.
  - apply (proj1 (proj2 (update_lead_outcomes one_lead_db id_0 no_update)));
      [reflexivity | repeat split].
  - apply (proj2 (proj2 (update_lead_outcomes one_lead_db id_0 status_update)) 0%N);
      [reflexivity | intros [Hs _]; discriminate Hs | vm_compute; reflexivity].
Defined.

Lemma update_lead_writes_given_fields_witness :
  exists s' r d',
    update_lead one_lead_db id_1 (LeadUpdate.parse status_body) = (s', r)
    /\ status_of r = 200%nat
    /\ update_lead one_lead_db id_1 (LeadUpdate.parse (nulls_removed status_body))
       = (s', r)
    /\ find_one s' "lead" (QId 1%N) = Some d'
    /\ d' !! "status" = Some (VStr "Contacted")
    /\ d' !! "assigned_agent_id" = asha_doc !! "assigned_agent_id"
    /\ d' !! "assigned_manager_id" = asha_doc !! "assigned_manager_id"
    /\ (forall k, k ≠ "status" -> k ≠ "assigned_agent_id" ->
                  k ≠ "assigned_manager_id" -> d' !! k = asha_doc !! k)
    /\ (forall o', o' ≠ 1%N ->
          find_one s' "lead" (QId o') = find_one one_lead_db "lead" (QId o'))
    /\ (forall name, name ≠ "lead" -> coll s' name = coll one_lead_db name).
Proof.
  apply (update_lead_writes_given_fields one_lead_db id_1 status_body 1%N asha_doc);
    vm_compute; reflexivity.
Defined.

Lemma malformed_identifier_outcome_witness :
  (exists l, handle no_repr one_lead_db (GetLeads "lead-1") = (one_lead_db, Ok (VList l))
     /\ status_of (handle no_repr one_lead_db (GetLeads "lead-1")).2 = 200%nat)
  /\ handle no_repr one_lead_db (PostFollowup (call_about "lead-1"))
     = (one_lead_db, HTTPException 400 "Invalid lead id")
  /\ status_of (handle no_repr one_lead_db (PostFollowup (call_about "lead-1"))).2
     = 400%nat.
Proof.
  split.
  - destruct (malformed_identifier_outcome no_repr one_lead_db (GetLeads "lead-1")
                eq_refl) as (l & Hl & Hst).
    exists l. split; [exact Hl | exact (Hst one_lead_db_reachable)].
  - apply (malformed_identifier_outcome no_repr one_lead_db
             (PostFollowup (call_about "lead-1"))).
    reflexivity.
Defined.


(** * Further properties of the code *)

(** ** [PyObjectId.validate] *)

Lemma fromhex_bytes (n : nat) (s : string) (b : list N) :
  (String.length s <= n)%nat -> fromhex s = Some b ->
  (2 * length b <= String.length s)%nat
  /\ ((2 * length b)%nat = String.length s -> forall a, is_Some (hex_decode a s)).
Proof.
  revert s b. induction n as [|n IH]; intros s b Hn.
  - destruct s; [|cbn in Hn; lia]. intros [= <-]. cbn. split; [lia | eauto].
  - destruct s as [|c s']; [intros [= <-]; cbn; split; [lia | eauto]|].
    cbn [fromhex String.length] in *. destruct (is_space c).
    + intros Hb. destruct (IH s' b ltac:(lia) Hb) as [Hle _]. split; lia.
    + destruct (hex_digit_value c) as [top|] eqn:Ec; [|discriminate].
      destruct s' as [|c' s'']; [discriminate|].
      destruct (hex_digit_value c') as [bot|] eqn:Ec'; [|discriminate].
      destruct (fromhex s'') as [b'|] eqn:Eb; [|discriminate].
      intros [= <-]. cbn [String.length] in *.
      destruct (IH s'' b' ltac:(lia) Eb) as [Hle Hall].
      cbn [length]. split; [lia|]. intros Heq a.
      cbn [hex_decode]. rewrite Ec, Ec'. apply Hall. lia.
Qed.

(** X1: [PyObjectId.validate] returns an identifier as it is, reads the
    string form of every 12-byte identifier back to that identifier, and
    raises [ValueError] on a string [ObjectId.is_valid] refuses.  On a
    string the check accepts it returns the 12-byte identifier the 24
    digits denote, or, where blanks stand among the digits, an identifier
    of the fewer bytes [bytes.fromhex] reads: 11 for 22 digits and two
    blanks. *)
Theorem PyObjectId_validate_round_trip (o : ObjectId) :
  (o < 2 ^ 96)%N ->
  PyObjectId_validate (ArgObjectId o) = Valid o
  /\ PyObjectId_validate (ArgStr (oid_str o)) = Valid o
  /\ (forall s, is_valid s = false ->
        PyObjectId_validate (ArgStr s) = ValueError "Invalid ObjectId")
  /\ (forall s, is_valid s = true ->
        (exists o', PyObjectId_validate (ArgStr s) = Valid o'
                    /\ hex_decode 0 s = Some o')
        \/ (exists b, PyObjectId_validate (ArgStr s) = ValidShort b
                      /\ fromhex s = Some b /\ (length b < 12)%nat))
  /\ PyObjectId_validate (ArgStr id_blank) = ValidShort (replicate 11 0%N).
Proof.
  intros Ho. destruct (oid_str_round_trip o Ho) as [Hv Hn].
  split; [reflexivity|]. split; [|split; [|split; [|reflexivity]]].
  - unfold PyObjectId_validate. rewrite Hv, Hn. reflexivity.
  - intros s Hs. unfold PyObjectId_validate. rewrite Hs. reflexivity.
  - intros s Hs. unfold PyObjectId_validate, ObjectId_new. rewrite Hs. cbn [negb].
    destruct (hex_decode 0 s) as [o'|] eqn:Ed; [left; eauto|]. right.
    unfold is_valid in Hs. apply andb_prop in Hs as [Hlen Hb].
    apply Nat.eqb_eq in Hlen.
    destruct (fromhex s) as [b|] eqn:Eb; [|discriminate].
    exists b. split; [reflexivity|]. split; [reflexivity|].
    destruct (fromhex_bytes _ s b (le_n _) Eb) as [Hle Hall].
    destruct (decide ((2 * length b)%nat = String.length s)) as [Heq|Hne]; [|lia].
    destruct (Hall Heq 0%N) as [o' Ho']. congruence.
Qed.

Lemma PyObjectId_validate_round_trip_witness :
  PyObjectId_validate (ArgObjectId 255%N) = Valid 255%N
  /\ PyObjectId_validate (ArgStr (oid_str 255%N)) = Valid 255%N
  /\ (forall s, is_valid s = false ->
        PyObjectId_validate (ArgStr s) = ValueError "Invalid ObjectId")
  /\ (forall s, is_valid s = true ->
        (exists o', PyObjectId_validate (ArgStr s) = Valid o'
                    /\ hex_decode 0 s = Some o')
        \/ (exists b, PyObjectId_validate (ArgStr s) = ValidShort b
                      /\ fromhex s = Some b /\ (length b < 12)%nat))
  /\ PyObjectId_validate (ArgStr id_blank) = ValidShort (replicate 11 0%N).
Proof. apply (PyObjectId_validate_round_trip 255%N). reflexivity. Defined.

(** ** [to_serializable] *)

Section SerializerMore.
Context {F : Type}.
Variable py_repr : Value F -> string.
Implicit Types (x d : Doc F) (v : Value F).

Lemma str_if_oid_idem v : str_if_oid (str_if_oid v) = str_if_oid v.
Proof. by destruct v. Qed.

Lemma converted_idem v : converted (converted v) = converted v.
Proof.
  destruct v as [ | | | | | | l | ]; cbn; try reflexivity.
  f_equal. rewrite <- list_fmap_compose. apply list_fmap_ext.
  intros i e _. apply str_if_oid_idem.
Qed.

(** X2: serializing a serialized record changes nothing. *)
Theorem to_serializable_idempotent x :
  to_serializable py_repr (to_serializable py_repr x) = to_serializable py_repr x.
Proof.
  apply map_eq. intros k.
  rewrite (to_serializable_lookup py_repr (to_serializable py_repr x) k).
  rewrite !(to_serializable_lookup py_repr x).
  repeat case_decide; try done.
  - destruct (x !! "_id"); [reflexivity|].
    destruct (x !! "id"); cbn; [|reflexivity]. by rewrite converted_idem.
  - destruct (x !! k); cbn; [|reflexivity]. by rewrite converted_idem.
Qed.

(** X3: [to_serializable] drops no field but [_id] and adds none but [id];
    when the record has an [_id], the [id] it gets replaces a stored field
    of that name. *)
Theorem to_serializable_fields x :
  (forall k, is_Some (to_serializable py_repr x !! k) <->
             (k ≠ "_id" /\ is_Some (x !! k)) \/ (k = "id" /\ is_Some (x !! "_id")))
  /\ (forall v, x !! "_id" = Some v ->
        to_serializable py_repr x !! "id" = Some (VStr (py_str py_repr v))).
Proof.
  split.
  - intros k. rewrite to_serializable_lookup.
    repeat case_decide; subst.
    + split; [by intros [? ?] | intros [[? _]|[? _]]; done].
    + destruct (x !! "_id") as [w|].
      * split; [intros _; right; eauto | eauto].
      * rewrite is_Some_alt. destruct (x !! "id"); cbn.
        -- split; [intros _; left; eauto | done].
        -- split; [done | intros [[_ [? ?]]|[_ [? ?]]]; done].
    + rewrite is_Some_alt. destruct (x !! k) eqn:E; cbn.
      * split; [intros _; left; eauto | done].
      * split; [done | intros [[_ [? ?]]|[? _]]; done].
  - intros v Hv. by rewrite to_serializable_lookup, Hv.
Qed.

End SerializerMore.

(** ** Quotations on doubles *)

(** X4: the [ge=0] checks on the inputs bound neither the total nor what
    becomes of it.  On doubles, inputs that pass them can overflow: with a
    markup the total is infinite, it passes the [ge=0] check of the
    Quotation schema, the Quotation is stored and the answer, which has no
    JSON encoding, is a 500; without a markup the total is not a number,
    the Quotation schema refuses it, and the request ends in a 500 with
    nothing stored. *)
Theorem create_quote_overflow :
  QuotationCreate.valid (overflow_quote_for 10) = true
  /\ (exists q,
        create_quote empty_db (overflow_quote_for 10)
          = ({| colls := {[ "quotation" := [q] ]}; next_oid := 2%N; clock := 1%N |},
             Ok (VDict (list_to_map
                          [("id", VStr id_1); ("total", VFloat infinity)])))
        /\ q !! "generated_price" = Some (VFloat infinity)
        /\ status_of (create_quote empty_db (overflow_quote_for 10)).2 = 500%nat)
  /\ QuotationCreate.valid (overflow_quote_for 0) = true
  /\ create_quote empty_db (overflow_quote_for 0)
     = (empty_db, Unhandled "ValidationError")
  /\ status_of (create_quote empty_db (overflow_quote_for 0)).2 = 500%nat.
Proof.
  split; [reflexivity|]. split.
  { eexists. split; [vm_compute; reflexivity|]. split; vm_compute; reflexivity. }
  split; [reflexivity|]. split; vm_compute; reflexivity.
Qed.

(** X5: a 24-character string with blanks among its digits passes the
    identifier check of every endpoint.  The two lists by Lead are
    answered with a list, a PATCH without update fields with
    [{updated: false}], and POST /api/quotations stores a Quotation under
    that very string. *)
Theorem blank_identifier_accepted :
  is_valid id_blank = true
  /\ list_followups (F := float) no_repr empty_db id_blank = Ok (VList [])
  /\ quotes_by_lead (F := float) no_repr empty_db id_blank = Ok (VList [])
  /\ update_lead (F := float) empty_db id_blank no_update
     = (empty_db, Ok (VDict (list_to_map [("updated", VBool false)])))
  /\ (exists s' q,
        create_quote empty_db (quote_for id_blank)
          = (s', Ok (VDict (list_to_map
                       [("id", VStr id_1); ("total", VFloat 2011900%float)])))
        /\ coll s' "quotation" = [q]
        /\ q !! "lead_id" = Some (VStr id_blank)
        /\ status_of (create_quote empty_db (quote_for id_blank)).2 = 200%nat).
Proof.
  split; [reflexivity|]. split; [reflexivity|]. split; [reflexivity|].
  split; [reflexivity|].
  eexists _, _. split; [vm_compute; reflexivity|].
  split; [vm_compute; reflexivity|]. split; vm_compute; reflexivity.
Qed.

(** ** Reading back what was written *)

Section ReadBack.
Context {F : Type} `{PyFloat F}.
Variable py_repr : Value F -> string.
Implicit Types (s : Db F) (d x : Doc F).

Lemma insert_desc_elem_2 (x d : Doc F) (l : list (Doc F)) :
  x = d \/ x ∈ l -> x ∈ insert_desc d l.
Proof.
  induction l as [|y l IH]; cbn.
  - intros [->|Hin]; [apply list_elem_of_here | by apply elem_of_nil in Hin].
  - destruct (newer_or_same d y).
    + intros [->|Hin]; [left | by right].
    + intros [->|[->|Hin]%elem_of_cons]; [right; apply IH; by left | left |].
      right. apply IH. by right.
Qed.

Lemma sort_created_at_desc_elem_2 (x : Doc F) (l : list (Doc F)) :
  x ∈ l -> x ∈ sort_created_at_desc l.
Proof.
  induction l as [|y l IH]; cbn; [done|].
  intros [->|Hin]%elem_of_cons; apply insert_desc_elem_2; [by left|].
  right. by apply IH.
Qed.

Lemma listed s name q x :
  x ∈ coll s name -> matches q x = true ->
  VDict (to_serializable py_repr x)
    ∈ (VDict <$> (to_serializable py_repr <$> sort_created_at_desc (find s name q))
        : list (Value F)).
Proof.
  intros Hin Hm. apply list_elem_of_fmap_2, list_elem_of_fmap_2.
  apply sort_created_at_desc_elem_2. unfold find.
  apply list_elem_of_In, filter_In. split; [by apply list_elem_of_In | exact Hm].
Qed.

(** X7: the follow-up a successful POST /api/followups stores is listed by
    GET /api/followups under the same [lead_id] string, with the posted
    fields and, as [id], the identifier the POST returned. *)
Theorem create_followup_then_list s s' (p : FollowUp.t) (body : Value F) :
  create_followup s p = (s', Ok body) ->
  exists new_id d,
    body = VDict (list_to_map [("id", VStr new_id)])
    /\ returned (list_followups py_repr s' (FollowUp.lead_id p)) d
    /\ d !! "id" = Some (VStr new_id)
    /\ d !! "_id" = None
    /\ d !! "lead_id" = Some (VStr (FollowUp.lead_id p))
    /\ d !! "notes" = Some (VStr (FollowUp.notes p))
    /\ d !! "type" = Some (VStr (FollowUp.type p)).
Proof.
  unfold create_followup.
  destruct (is_valid (FollowUp.lead_id p)) eqn:Hv; cbn [negb]; [|discriminate].
  destruct (ObjectId_new _) as [oid|]; [|discriminate].
  destruct (falsy _); [discriminate|].
  pose proof (create_document_same s "followup" (FollowUp.model_dump p)) as Hsame.
  pose proof (create_document_id s "followup" (FollowUp.model_dump p)) as Hid.
  destruct (create_document s "followup" (FollowUp.model_dump p)) as [s1 new_id].
  cbn [fst snd] in Hsame, Hid. subst new_id.
  destruct (update_one _ _ _ _) as [[s2 n]|] eqn:Eu; [|discriminate].
  intros [= <- <-].
  pose proof (update_one_other _ _ _ "followup" _ _ _ Eu ltac:(discriminate)) as Hfu.
  rewrite Hsame in Hfu.
  set (fu := <["_id" := VOid (next_oid s)]>
               (<["created_at" := VDate (clock s)]> (FollowUp.model_dump p))) in *.
  assert (Hin : fu ∈ coll s2 "followup").
  { rewrite Hfu. apply elem_of_app. right. apply list_elem_of_here. }
  assert (Hm : matches (QField "lead_id" (FollowUp.lead_id p)) fu = true).
  { cbn. unfold fu. rewrite !lookup_insert_ne by discriminate. cbn.
    apply String.eqb_refl. }
  exists (oid_str (next_oid s)), (to_serializable py_repr fu).
  split; [reflexivity|]. split.
  { unfold list_followups. rewrite Hv. cbn [negb returned serialized].
    by apply listed. }
  rewrite !to_serializable_lookup. unfold fu.
  repeat split; repeat case_decide; try done;
    rewrite ?lookup_insert_eq, ?lookup_insert_ne by discriminate; reflexivity.
Qed.

(** X8: when POST /api/quotations answers 200, its body is [{id, total}]
    with a finite total and the quotation is stored; a
    GET /api/quotations/by-lead under the same [lead_id] string that
    answers 200 then lists it: its [id] is the identifier returned, its
    [generated_price] the total returned, its [pricing_inputs] the inputs
    posted, and it has no document yet. *)
Theorem create_quote_then_list s s' (p : QuotationCreate.t F) (r : Response F) :
  create_quote s p = (s', r) ->
  status_of r = 200%nat ->
  status_of (quotes_by_lead py_repr s' (QuotationCreate.lead_id p)) = 200%nat ->
  exists new_id d,
    r = Ok (VDict (list_to_map
             [("id", VStr new_id);
              ("total", VFloat (q_total (compute_quote (QuotationCreate.inputs p))))]))
    /\ ffinite (q_total (compute_quote (QuotationCreate.inputs p))) = true
    /\ returned (quotes_by_lead py_repr s' (QuotationCreate.lead_id p)) d
    /\ d !! "id" = Some (VStr new_id)
    /\ d !! "generated_price"
       = Some (VFloat (q_total (compute_quote (QuotationCreate.inputs p))))
    /\ d !! "pricing_inputs"
       = Some (VDict (QuotationInputs_dump (QuotationCreate.inputs p)))
    /\ d !! "pdf_url" = Some VNone.
Proof.
  unfold create_quote.
  destruct (is_valid (QuotationCreate.lead_id p)) eqn:Hv; cbn [negb];
    [|intros [= <- <-]; discriminate].
  destruct (negb (Quotation.valid _)); [intros [= <- <-]; discriminate|].
  match goal with |- context [create_document s "quotation" ?data] =>
    pose proof (create_document_same s "quotation" data) as Hsame;
    pose proof (create_document_id s "quotation" data) as Hid;
    set (q := <["_id" := VOid (next_oid s)]>
                (<["created_at" := VDate (clock s)]> data)) in *;
    destruct (create_document s "quotation" data) as [s1 new_id] end.
  cbn [fst snd] in Hsame, Hid. subst new_id.
  intros [= <- <-] Hst _.
  assert (Hfin : ffinite (q_total (compute_quote (QuotationCreate.inputs p))) = true).
  { cbn [status_of] in Hst.
    destruct (encodable (obj _)) eqn:Henc; [|discriminate].
    exact (proj1 (encodable_dict _) Henc "total" (VFloat _) eq_refl). }
  assert (Hin : q ∈ coll s1 "quotation").
  { rewrite Hsame. apply elem_of_app. right. apply list_elem_of_here. }
  assert (Hm : matches (QField "lead_id" (QuotationCreate.lead_id p)) q = true).
  { cbn. unfold q. rewrite !lookup_insert_ne by discriminate. cbn.
    apply String.eqb_refl. }
  exists (oid_str (next_oid s)), (to_serializable py_repr q).
  split; [reflexivity|]. split; [exact Hfin|]. split.
  { unfold quotes_by_lead. rewrite Hv. cbn [negb returned serialized].
    by apply listed. }
  rewrite !to_serializable_lookup. unfold q.
  repeat split; repeat case_decide; try done;
    rewrite ?lookup_insert_eq, ?lookup_insert_ne by discriminate; reflexivity.
Qed.

End ReadBack.

(** ** Leads *)

Section LeadsMore.
Context {F : Type}.
Variable py_repr : Value F -> string.
Implicit Types (s : Db F) (d x : Doc F).

(** X9: POST /api/leads stores one Lead with status "New", no assignment
    and an empty follow-up list, whatever the body says; a requirement type
    that is missing or empty is stored as "Interior", a source that is
    missing or empty as "web", and one that is given is stored as given;
    the [project_id] of the body is not stored and has no effect; the new
    Lead is listed by GET /api/leads under the identifier returned. *)
Theorem create_lead_stores_new_lead s (p : LeadRequest.t) :
  exists s' d,
    create_lead s p
      = (s', Ok (VDict (list_to_map
                   [("id", VStr (oid_str (next_oid s))); ("status", VStr "New")])))
    /\ coll s' "lead" = coll s "lead" ++ [d]
    /\ d !! "status" = Some (VStr "New")
    /\ d !! "follow_up_ids" = Some (VList [])
    /\ d !! "assigned_agent_id" = Some VNone
    /\ d !! "assigned_manager_id" = Some VNone
    /\ d !! "project_id" = None
    /\ d !! "requirement_type"
       = Some (VStr match LeadRequest.requirement_type p with
                    | Some t => if String.eqb t "" then "Interior" else t
                    | None => "Interior"
                    end)
    /\ d !! "source"
       = Some (VStr match LeadRequest.source p with
                    | Some t => if String.eqb t "" then "web" else t
                    | None => "web"
                    end)
    /\ (forall pid,
          create_lead s
            {| LeadRequest.name := LeadRequest.name p;
               LeadRequest.phone := LeadRequest.phone p;
               LeadRequest.email := LeadRequest.email p;
               LeadRequest.project_id := pid;
               LeadRequest.requirement_type := LeadRequest.requirement_type p;
               LeadRequest.source := LeadRequest.source p |}
          = create_lead s p)
    /\ (exists j, returned (list_leads py_repr s' None) j
          /\ j !! "id" = Some (VStr (oid_str (next_oid s)))
          /\ j !! "name" = Some (VStr (LeadRequest.name p))
          /\ j !! "phone" = Some (VStr (LeadRequest.phone p))).
Proof.
  pose (data := Lead.model_dump (F := F)
    {| Lead.name := LeadRequest.name p;
       Lead.phone := LeadRequest.phone p;
       Lead.email := LeadRequest.email p;
       Lead.requirement_type :=
         Some (or_default (LeadRequest.requirement_type p) "Interior");
       Lead.source := Some (or_default (LeadRequest.source p) "web");
       Lead.status := "New";
       Lead.assigned_manager_id := None;
       Lead.assigned_agent_id := None;
       Lead.follow_up_ids := [] |}).
  pose proof (create_document_same s "lead" data) as Hsame.
  exists (create_document s "lead" data).1.
  eexists. split; [reflexivity|]. split; [exact Hsame|].
  repeat split; try reflexivity.
  - eexists (to_serializable py_repr _). split.
    + cbn [list_leads returned serialized].
      apply (listed py_repr _ "lead" QAll); [|reflexivity].
      rewrite Hsame. apply elem_of_app. right. apply list_elem_of_here.
    + rewrite !to_serializable_lookup.
      repeat split; repeat case_decide; try done.
Qed.

Lemma update_first_fixed q (f : Doc F -> option (Doc F)) (c : list (Doc F)) d :
  List.find (matches q) c = Some d -> f d = Some d ->
  update_first q f c = Some (c, 1%nat).
Proof.
  induction c as [|x c IH]; cbn; [discriminate|].
  destruct (matches q x).
  - intros [= ->] ->. reflexivity.
  - intros Hf Hd. by rewrite IH.
Qed.

Lemma set_coll_set_coll s name (c c' : list (Doc F)) :
  set_coll (set_coll s name c) name c' = set_coll s name c'.
Proof. unfold set_coll. cbn. by rewrite insert_insert_eq. Qed.

(** X10: PATCH /api/leads is idempotent: sending the same request again
    gives the same answer and leaves the store as the first one left it. *)
Theorem update_lead_idempotent s (lead_id : string) (p : LeadUpdate.t) :
  update_lead (update_lead s lead_id p).1 lead_id p = update_lead s lead_id p.
Proof.
  unfold update_lead.
  destruct (is_valid lead_id) eqn:Hv; cbn [negb fst]; [|reflexivity].
  set (upd := LeadUpdate.model_dump_exclude_none (F := F) p).
  destruct (dict_empty upd) eqn:He; cbn [fst]; [reflexivity|].
  destruct (ObjectId_new lead_id) as [oid|] eqn:Ho; cbn [fst]; [|reflexivity].
  unfold update_one.
  destruct (List.find (matches (QId oid)) (coll s "lead")) as [d|] eqn:Ef.
  - assert (Hm : matches (QId oid) (upd ∪ d) = true).
    { apply find_some in Ef as [_ Hd].
      apply matches_id_lookup, op_set_keeps_id. by apply matches_id_lookup. }
    destruct (update_first_match (QId oid) (op_set upd) _ d (upd ∪ d) Ef eq_refl)
      as (c' & Hup & _ & Hfind').
    rewrite Hup. cbn [Nat.eqb fst].
    rewrite coll_set_coll_eq.
    rewrite (update_first_fixed (QId oid) (op_set upd) c' (upd ∪ d) (Hfind' Hm)).
    + cbn [Nat.eqb]. by rewrite set_coll_set_coll.
    + unfold op_set. f_equal. by rewrite (assoc_L (∪)), (idemp_L (∪)).
  - rewrite (update_first_no_match _ _ _ Ef). cbn [Nat.eqb fst].
    by rewrite (update_first_no_match _ _ _ Ef).
Qed.

(** X11: PATCH /api/leads never adds, removes or re-identifies a record,
    whatever it answers: the Lead collection keeps its identifiers in their
    order (no upsert on an unknown id), every other collection is untouched,
    and no identifier is drawn from the generator. *)
Theorem update_lead_keeps_records s (lead_id : string) (p : LeadUpdate.t) :
  ids_of (coll (update_lead s lead_id p).1 "lead") = ids_of (coll s "lead")
  /\ (forall name, name ≠ "lead" ->
        coll (update_lead s lead_id p).1 name = coll s name)
  /\ next_oid (update_lead s lead_id p).1 = next_oid s.
Proof.
  unfold update_lead.
  destruct (negb (is_valid lead_id)); [done|].
  destruct (dict_empty _); [done|].
  destruct (ObjectId_new lead_id) as [oid|]; [|done].
  destruct (update_one _ _ _ _) as [[s1 n]|] eqn:Eu; [|done].
  assert (Hgoal : ids_of (coll s1 "lead") = ids_of (coll s "lead")
                  /\ (forall name, name ≠ "lead" -> coll s1 name = coll s name)
                  /\ next_oid s1 = next_oid s).
  { destruct (update_one_ids _ _ _ _ _ _ (op_set_id p) Eu) as (Hi & Hn & _).
    split; [exact Hi|]. split; [|exact Hn].
    intros name Hne. eapply update_one_other; [exact Eu | done]. }
  by destruct (Nat.eqb n 0).
Qed.

(** X12: after a PATCH has assigned an agent or a manager to an existing
    Lead, GET /api/leads with that value as [assigned_to] lists the Lead. *)
Theorem update_lead_then_list_assigned s (lead_id : string) (p : LeadUpdate.t)
    (oid : ObjectId) (d0 : Doc F) (a : string) :
  ObjectId_new lead_id = Some oid ->
  find_one s "lead" (QId oid) = Some d0 ->
  a ≠ "" ->
  LeadUpdate.assigned_agent_id p = Some a \/ LeadUpdate.assigned_manager_id p = Some a ->
  exists j,
    returned (list_leads py_repr (update_lead s lead_id p).1 (Some a)) j
    /\ j !! "id" = Some (VStr (oid_str oid))
    /\ (j !! "assigned_agent_id" = Some (VStr a)
        \/ j !! "assigned_manager_id" = Some (VStr a)).
Proof.
  intros Hoid Hfind Ha Hp.
  set (upd := LeadUpdate.model_dump_exclude_none (F := F) p).
  assert (Hupd : upd !! "assigned_agent_id" = Some (VStr a)
                 \/ upd !! "assigned_manager_id" = Some (VStr a)).
  { unfold upd. rewrite !model_dump_exclude_none_lookup.
    repeat case_decide; try done. destruct Hp as [-> | ->]; [by left | by right]. }
  assert (He : dict_empty upd = false).
  { apply Nat.eqb_neq. destruct Hupd as [Hu|Hu];
      eapply map_size_ne_0_lookup_2; eauto. }
  pose proof Hfind as Hm. unfold find_one in Hm. apply find_some in Hm as [_ Hm].
  assert (Hid : (upd ∪ d0) !! "_id" = Some (VOid oid)).
  { apply op_set_keeps_id. by apply matches_id_lookup. }
  destruct (update_first_match (QId oid) (op_set upd) _ d0 (upd ∪ d0) Hfind eq_refl)
    as (c' & Hup & _ & Hfind').
  unfold update_lead. rewrite (ObjectId_new_is_valid _ _ Hoid), Hoid. cbn [negb].
  fold upd. rewrite He. unfold update_one. rewrite Hup. cbn [Nat.eqb fst].
  specialize (Hfind' (proj2 (matches_id_lookup _ _) Hid)).
  apply find_some in Hfind' as [Hin _]. apply list_elem_of_In in Hin.
  assert (Hfield : (upd ∪ d0) !! "assigned_agent_id" = Some (VStr a)
                   \/ (upd ∪ d0) !! "assigned_manager_id" = Some (VStr a)).
  { destruct Hupd as [Hu|Hu]; [left | right]; by apply lookup_union_Some_l. }
  exists (to_serializable py_repr (upd ∪ d0)). split.
  - cbn [list_leads returned serialized].
    apply String.eqb_neq in Ha. rewrite Ha.
    apply (listed py_repr _ "lead" _ (upd ∪ d0)).
    + by rewrite coll_set_coll_eq.
    + cbn. destruct Hfield as [-> | ->]; rewrite String.eqb_refl;
        [reflexivity | apply orb_true_r].
  - split.
    + rewrite to_serializable_lookup, Hid. by repeat case_decide.
    + destruct Hfield as [Hf|Hf]; [left | right];
        rewrite to_serializable_lookup, Hf; by repeat case_decide.
Qed.

End LeadsMore.

(** ** What no request does *)

Section Frames.
Context {F : Type} `{PyFloat F}.
Variable py_repr : Value F -> string.
Implicit Types (s : Db F) (d x : Doc F).

Lemma records_kept_refl s : records_kept s s.
Proof. intros name. split; [done | intros _; done]. Qed.

Lemma records_kept_trans s1 s2 s3 :
  records_kept s1 s2 -> records_kept s2 s3 -> records_kept s1 s3.
Proof.
  intros H12 H23 name. destruct (H12 name) as [Ha Hb], (H23 name) as [Hc Hd].
  split; [by etrans|]. intros Hne. etrans; [by apply Hb | by apply Hd].
Qed.

Lemma create_document_kept s name (data : Doc F) :
  records_kept s (create_document s name data).1.
Proof.
  intros name'. destruct (decide (name = name')) as [<-|Hne].
  - rewrite create_document_same. split.
    + unfold ids_of. rewrite fmap_app. by apply prefix_app_r.
    + intros _. by apply prefix_app_r.
  - rewrite create_document_other by done. split; [done | intros _; done].
Qed.

Lemma update_one_lead_kept s s' q (f : Doc F -> option (Doc F)) n :
  (forall d d', f d = Some d' -> d' !! "_id" = d !! "_id") ->
  update_one s "lead" q f = Some (s', n) -> records_kept s s'.
Proof.
  intros Hf Hu name. destruct (decide (name = "lead")) as [->|Hne].
  - destruct (update_one_ids _ _ _ _ _ _ Hf Hu) as [-> _]. split; done.
  - rewrite (update_one_other _ _ _ name _ _ _ Hu) by done.
    split; [done | intros _; done].
Qed.

Lemma handle_kept s (r : IdRequest F) : records_kept s (handle py_repr s r).1.
Proof.
  destruct r as [a | i p | p | i | p | i]; cbn [handle fst];
    try apply records_kept_refl.
  - unfold update_lead.
    destruct (negb (is_valid i)); [apply records_kept_refl|].
    destruct (dict_empty _); [apply records_kept_refl|].
    destruct (ObjectId_new i) as [oid|]; [|apply records_kept_refl].
    destruct (update_one _ _ _ _) as [[s1 n]|] eqn:Eu; [|apply records_kept_refl].
    assert (records_kept s s1).
    { eapply update_one_lead_kept; [|exact Eu]. apply op_set_id. }
    by destruct (Nat.eqb n 0).
  - unfold create_followup.
    destruct (negb (is_valid _)); [apply records_kept_refl|].
    destruct (ObjectId_new _) as [oid|]; [|apply records_kept_refl].
    destruct (falsy _); [apply records_kept_refl|].
    pose proof (create_document_kept s "followup" (FollowUp.model_dump p)) as H1.
    destruct (create_document s "followup" (FollowUp.model_dump p)) as [s1 new_id].
    cbn [fst] in H1.
    destruct (update_one _ _ _ _) as [[s2 n]|] eqn:Eu; [|exact H1].
    eapply records_kept_trans; [exact H1|].
    eapply update_one_lead_kept; [|exact Eu].
    intros d d'. by apply op_push_id.
  - unfold create_quote.
    destruct (negb (is_valid _)); [apply records_kept_refl|].
    destruct (negb (Quotation.valid _)); [apply records_kept_refl|].
    match goal with |- context [create_document s "quotation" ?data] =>
      pose proof (create_document_kept s "quotation" data) as H1;
      destruct (create_document s "quotation" data) as [s1 new_id] end.
    exact H1.
Qed.

(** X13: no request deletes a record or changes its identifier: after any
    request every collection still holds the records it held, in their
    order, possibly followed by new ones; records outside the Lead
    collection are never modified. *)
Theorem serve_keeps_records s (r : Request F) :
  records_kept s (serve py_repr s r).1.
Proof.
  destruct r as [p | p | p | p | p | r]; cbn [serve];
    [ unfold create_community | unfold create_tower | unfold create_flat
    | unfold create_floorplan | unfold create_lead | apply handle_kept ];
    match goal with |- context [create_document s ?name ?data] =>
      pose proof (create_document_kept s name data) as H1;
      destruct (create_document s name data) as [s1 new_id]; exact H1
    end.
Qed.

Lemma handle_writes s (r : IdRequest F) (name : string) :
  name ≠ "lead" -> name ≠ "followup" -> name ≠ "quotation" ->
  coll (handle py_repr s r).1 name = coll s name.
Proof.
  intros Hl Hf Hq.
  destruct r as [a | i p | p | i | p | i]; cbn [handle fst]; try reflexivity.
  - unfold update_lead.
    destruct (negb (is_valid i)); [reflexivity|].
    destruct (dict_empty _); [reflexivity|].
    destruct (ObjectId_new i) as [oid|]; [|reflexivity].
    destruct (update_one _ _ _ _) as [[s1 n]|] eqn:Eu; [|reflexivity].
    assert (coll s1 name = coll s name).
    { eapply update_one_other; [exact Eu | done]. }
    by destruct (Nat.eqb n 0).
  - unfold create_followup.
    destruct (negb (is_valid _)); [reflexivity|].
    destruct (ObjectId_new _) as [oid|]; [|reflexivity].
    destruct (falsy _); [reflexivity|].
    pose proof (create_document_other s "followup" name (FollowUp.model_dump p)
                  ltac:(done)) as H1.
    destruct (create_document s "followup" (FollowUp.model_dump p)) as [s1 new_id].
    cbn [fst] in H1.
    destruct (update_one _ _ _ _) as [[s2 n]|] eqn:Eu; [|exact H1].
    cbn [fst]. rewrite <- H1. eapply update_one_other; [exact Eu | done].
  - unfold create_quote.
    destruct (negb (is_valid _)); [reflexivity|].
    destruct (negb (Quotation.valid _)); [reflexivity|].
    match goal with |- context [create_document s "quotation" ?data] =>
      pose proof (create_document_other s "quotation" name data ltac:(done)) as H1;
      destruct (create_document s "quotation" data) as [s1 new_id] end.
    exact H1.
Qed.

(** X14: a request writes only to collections named in [SCHEMA_MANIFEST],
    and never to the [user] collection the manifest also names. *)
Theorem serve_writes_manifest_collections s (r : Request F) (name : string) :
  name ∉ SCHEMA_MANIFEST \/ name = "user" ->
  coll (serve py_repr s r).1 name = coll s name.
Proof.
  intros Hname.
  assert (Hne : forall n, n ∈ SCHEMA_MANIFEST -> n ≠ "user" -> name ≠ n).
  { intros n Hn Hu ->. destruct Hname as [Hout | ->]; [by apply Hout | done]. }
  assert (Hin : forall n, In n SCHEMA_MANIFEST -> n ∈ SCHEMA_MANIFEST).
  { intros n. apply list_elem_of_In. }
  destruct r as [p | p | p | p | p | r]; cbn [serve];
    [ unfold create_community | unfold create_tower | unfold create_flat
    | unfold create_floorplan | unfold create_lead | ];
    try (match goal with |- context [create_document s ?n ?data] =>
           pose proof (create_document_other s n name data) as H1;
           destruct (create_document s n data) as [s1 new_id]; apply H1;
           apply not_eq_sym, Hne; [apply Hin; cbn; tauto | discriminate]
         end).
  apply handle_writes; apply Hne; try discriminate; apply Hin; cbn; tauto.
Qed.

Lemma update_first_is_Some q (f : Doc F -> option (Doc F)) (c : list (Doc F)) :
  Forall (fun d => is_Some (f d)) c -> is_Some (update_first q f c).
Proof.
  induction 1 as [|x c [x' Hx] _ IH]; cbn; [eauto|].
  destruct (matches q x); [rewrite Hx; eauto|].
  destruct IH as [[c' n] ->]. eauto.
Qed.

Lemma obj_encodable (l : list (string * Value F)) :
  Forall (fun kv => encodable kv.2 = true) l -> encodable (obj l) = true.
Proof.
  intros Hl. apply encodable_dict. intros k v Hk%elem_of_list_to_map_2.
  rewrite Forall_forall in Hl. exact (Hl (k, v) Hk).
Qed.

(** X15: on a store the handlers have built, no Lead or follow-up request
    ends in a server error: PATCH /api/leads, POST /api/followups,
    GET /api/leads and GET /api/followups answer 200, 400 or 404, whenever
    the identifier sent to the store has its 12 bytes. *)
Theorem lead_requests_never_fail s (r : IdRequest F) :
  reachable py_repr s ->
  (forall p, r ≠ PostQuotation p) ->
  (forall i, r ≠ GetQuotationsByLead i) ->
  uses_short_id r = false ->
  status_of (handle py_repr s r).2 = 200%nat
  \/ status_of (handle py_repr s r).2 = 400%nat
  \/ status_of (handle py_repr s r).2 = 404%nat.
Proof.
  intros Hreach Hr Hr' Hshort.
  pose proof (reachable_leads_wf py_repr s Hreach) as Hs.
  destruct r as [a | i p | p | i | p | i]; cbn [handle snd].
  - left. by apply list_leads_status.
  - unfold update_lead. cbn [uses_short_id] in Hshort. unfold short_id in Hshort.
    destruct (is_valid i) eqn:Hv; cbn [negb andb] in *; [|right; by left].
    destruct (dict_empty _); [by left|].
    destruct (ObjectId_new i) as [oid|]; [|discriminate].
    unfold update_one.
    destruct (update_first_is_Some (QId oid)
                (op_set (LeadUpdate.model_dump_exclude_none p)) (coll s "lead"))
      as [[c' n] ->].
    { apply Forall_forall. intros d _. unfold op_set. eauto. }
    destruct n; cbn; [right; by right | by left].
  - unfold create_followup. cbn [uses_short_id] in Hshort. unfold short_id in Hshort.
    destruct (is_valid _) eqn:Hv; cbn [negb andb] in *; [|right; by left].
    destruct (ObjectId_new _) as [oid|]; [|discriminate].
    destruct (falsy _); [right; by right|].
    pose proof (create_document_leads_wf s "followup" (FollowUp.model_dump p)
                  ltac:(discriminate) Hs) as Hs1.
    destruct (create_document s "followup" (FollowUp.model_dump p)) as [s1 new_id].
    cbn [fst] in Hs1. unfold update_one.
    destruct (update_first_is_Some (QId oid)
                (op_push "follow_up_ids" (VStr new_id)) (coll s1 "lead"))
      as [[c' n] ->].
    { eapply Forall_impl; [exact Hs1|]. intros d [l Hl].
      unfold op_push. rewrite Hl. eauto. }
    left. assert (Henc : encodable (obj [("id", VStr new_id : Value F)]) = true).
    { apply obj_encodable. by repeat constructor. }
    destruct n; cbn [snd status_of]; by rewrite Henc.
  - rewrite list_followups_status by exact Hreach.
    destruct (is_valid i); [by left | right; by left].
  - by destruct (Hr p).
  - by destruct (Hr' i).
Qed.

End Frames.

(** ** From a new Lead to its first follow-up *)

Section EndToEnd.
Context {F : Type} `{PyFloat F}.
Variable py_repr : Value F -> string.
Implicit Types (s : Db F) (d x : Doc F).

Lemma find_app_new (f : Doc F -> bool) (l : list (Doc F)) d :
  (forall x, x ∈ l -> f x = false) -> f d = true ->
  List.find f (l ++ [d]) = Some d.
Proof.
  intros Hl Hd. induction l as [|y l IH]; cbn; [by rewrite Hd|].
  rewrite (Hl y) by left. apply IH. intros x Hx. apply Hl. by right.
Qed.

(** A follow-up posted for a Lead that is found and has a follow-up list. *)
Lemma create_followup_found s (p : FollowUp.t) (oid : ObjectId) d
    (l : list (Value F)) :
  ObjectId_new (FollowUp.lead_id p) = Some oid ->
  find_one s "lead" (QId oid) = Some d ->
  d !! "follow_up_ids" = Some (VList l) ->
  exists s',
    create_followup s p
      = (s', Ok (VDict (list_to_map [("id", VStr (oid_str (next_oid s)))])))
    /\ find_one s' "lead" (QId oid)
       = Some (<["follow_up_ids" := VList (l ++ [VStr (oid_str (next_oid s))])]> d)
    /\ coll s' "followup"
       = coll s "followup"
           ++ [<["_id" := VOid (next_oid s)]>
                 (<["created_at" := VDate (clock s)]> (FollowUp.model_dump p))].
Proof.
  intros Hoid Hfind Hlist.
  pose proof Hfind as Hm. unfold find_one in Hm. apply find_some in Hm as [_ Hm].
  unfold create_followup.
  rewrite (ObjectId_new_is_valid _ _ Hoid), Hoid, Hfind. cbn [negb falsy].
  rewrite (matches_id_not_empty _ _ Hm).
  pose proof (create_document_other s "followup" "lead" (FollowUp.model_dump p)
                ltac:(discriminate)) as Hlead.
  pose proof (create_document_id s "followup" (FollowUp.model_dump p)) as Hid.
  pose proof (create_document_same s "followup" (FollowUp.model_dump p)) as Hsame.
  destruct (create_document s "followup" (FollowUp.model_dump p)) as [s1 new_id].
  cbn [fst snd] in Hlead, Hid, Hsame. subst new_id.
  set (d' := <["follow_up_ids" := VList (l ++ [VStr (oid_str (next_oid s))])]> d).
  assert (Hpush : op_push "follow_up_ids" (VStr (oid_str (next_oid s))) d = Some d').
  { unfold op_push. by rewrite Hlist. }
  assert (Hm' : matches (QId oid) d' = true).
  { apply matches_id_lookup. unfold d'. rewrite lookup_insert_ne by discriminate.
    by apply matches_id_lookup. }
  assert (Hfind1 : List.find (matches (QId oid)) (coll s1 "lead") = Some d).
  { rewrite Hlead. exact Hfind. }
  destruct (update_first_match _ _ _ _ _ Hfind1 Hpush) as (c' & Hup & _ & Hfind').
  unfold update_one. rewrite Hup.
  eexists. split; [reflexivity|]. split.
  - unfold find_one. rewrite coll_set_coll_eq. by apply Hfind'.
  - rewrite coll_set_coll_ne by discriminate. exact Hsame.
Qed.

(** X16: on a store the handlers have built, the identifier POST /api/leads
    returns is one POST /api/followups accepts: the answer is 200, the
    follow-up is stored as the last record of its collection, with the
    posted fields, the Lead's identifier string as [lead_id] and the
    identifier returned as [_id], and the new Lead's follow-up list holds
    exactly the identifier of that follow-up. *)
Theorem create_lead_then_followup s (lr : LeadRequest.t) (p : FollowUp.t) :
  reachable py_repr s ->
  (next_oid s < 2 ^ 96 - 1)%N ->
  FollowUp.lead_id p = oid_str (next_oid s) ->
  exists s1 s2 fid d2 fu,
    create_lead s lr
      = (s1, Ok (VDict (list_to_map
                   [("id", VStr (FollowUp.lead_id p)); ("status", VStr "New")])))
    /\ create_followup s1 p = (s2, Ok (VDict (list_to_map [("id", VStr fid)])))
    /\ status_of (create_followup s1 p).2 = 200%nat
    /\ coll s2 "followup" = coll s "followup" ++ [fu]
    /\ fid = oid_str (next_oid s + 1)%N
    /\ fu !! "_id" = Some (VOid (next_oid s + 1)%N)
    /\ fu !! "lead_id" = Some (VStr (FollowUp.lead_id p))
    /\ fu !! "notes" = Some (VStr (FollowUp.notes p))
    /\ fu !! "type" = Some (VStr (FollowUp.type p))
    /\ find_one s2 "lead" (QId (next_oid s)) = Some d2
    /\ d2 !! "follow_up_ids" = Some (VList [VStr fid])
    /\ d2 !! "name" = Some (VStr (LeadRequest.name lr))
    /\ fid ≠ FollowUp.lead_id p.
Proof.
  intros Hs%reachable_ids_fresh Hn Hp.
  destruct (oid_str_round_trip (next_oid s)) as [_ Hnew]; [lia|].
  rewrite <- Hp in Hnew.
  pose (data := Lead.model_dump (F := F)
    {| Lead.name := LeadRequest.name lr;
       Lead.phone := LeadRequest.phone lr;
       Lead.email := LeadRequest.email lr;
       Lead.requirement_type :=
         Some (or_default (LeadRequest.requirement_type lr) "Interior");
       Lead.source := Some (or_default (LeadRequest.source lr) "web");
       Lead.status := "New";
       Lead.assigned_manager_id := None;
       Lead.assigned_agent_id := None;
       Lead.follow_up_ids := [] |}).
  pose proof (create_document_same s "lead" data) as Hsame.
  pose proof (create_document_other s "lead" "followup" data ltac:(discriminate))
    as Hother.
  set (s1 := (create_document s "lead" data).1) in *.
  set (d1 := <["_id" := VOid (next_oid s)]>
               (<["created_at" := VDate (clock s)]> data)) in *.
  assert (Hfind : find_one s1 "lead" (QId (next_oid s)) = Some d1).
  { unfold find_one. rewrite Hsame. apply find_app_new.
    - intros x Hx. destruct (Hs _ _ Hx) as (o & Ho & Hlt).
      apply not_true_is_false. intros Hm%matches_id_lookup.
      rewrite Ho in Hm. injection Hm as ->. lia.
    - apply matches_id_lookup. unfold d1. apply lookup_insert_eq. }
  destruct (create_followup_found s1 p (next_oid s) d1 [] Hnew Hfind eq_refl)
    as (s2 & Hfu & Hfind2 & Hcoll).
  rewrite Hother in Hcoll.
  change (next_oid s1) with (next_oid s + 1)%N in *.
  exists s1, s2, (oid_str (next_oid s + 1)%N). eexists. eexists.
  split; [rewrite Hp; reflexivity|]. split; [exact Hfu|].
  split.
  { rewrite Hfu. cbn [snd status_of].
    rewrite (obj_encodable [("id", VStr (oid_str (next_oid s + 1)%N) : Value F)]);
      [reflexivity | by repeat constructor]. }
  split; [exact Hcoll|]. split; [reflexivity|].
  split; [by rewrite lookup_insert_eq|].
  split; [rewrite !lookup_insert_ne by discriminate; reflexivity|].
  split; [rewrite !lookup_insert_ne by discriminate; reflexivity|].
  split; [rewrite !lookup_insert_ne by discriminate; reflexivity|].
  split; [exact Hfind2|]. split; [by rewrite lookup_insert_eq|].
  split; [reflexivity|].
  rewrite Hp. intros Heq.
  destruct (oid_str_round_trip (next_oid s)) as [_ Ha]; [lia|].
  destruct (oid_str_round_trip (next_oid s + 1)%N) as [_ Hb]; [lia|].
  rewrite Heq in Hb. rewrite Ha in Hb. injection Hb. lia.
Qed.

End EndToEnd.

(** ** The catalog *)

Section Catalog.
Context {F : Type} `{PyFloat F}.
Variable py_repr : Value F -> string.
Implicit Types (s : Db F) (d x : Doc F).



End Catalog.

(** ** What the list endpoints return *)

Section Lists.
Context {F : Type} `{PyFloat F}.
Variable py_repr : Value F -> string.
Implicit Types (s : Db F) (d x : Doc F).

Lemma matches_field x (k a : string) :
  matches (QField k a) x = true <-> field_holds x k a.
Proof.
  unfold field_holds. cbn.
  destruct (x !! k) as [[ | | t | | | | l | ]|]; cbn;
    try (split; [discriminate | intros [[=]|(l' & [=] & _)]]).
  - rewrite String.eqb_eq. split.
    + intros ->. by left.
    + intros [[= ->]|(l' & [=] & _)]. reflexivity.
  - rewrite existsb_exists. split.
    + intros (e & Hin & He). right. exists l. split; [reflexivity|].
      destruct e; try discriminate. apply String.eqb_eq in He as ->.
      by apply list_elem_of_In.
    + intros [[=]|(l' & [= <-] & Hin)]. exists (VStr a).
      split; [by apply list_elem_of_In | apply String.eqb_refl].
Qed.

Lemma returned_sorted_find s name q d :
  returned (Ok (serialized py_repr (sort_created_at_desc (find s name q)))) d <->
  exists x, x ∈ coll s name /\ matches q x = true /\ d = to_serializable py_repr x.
Proof.
  cbn [returned serialized]. split.
  - intros (x & Hx & ->)%serialized_elem.
    apply sort_created_at_desc_elem in Hx. unfold find in Hx.
    apply list_elem_of_In, filter_In in Hx as [Hin Hm].
    exists x. split; [by apply list_elem_of_In | done].
  - intros (x & Hx & Hm & ->). by apply listed.
Qed.


(** X19: GET /api/leads without [assigned_to] lists every Lead, and so does
    an empty [assigned_to]; with a non-empty one it lists exactly the Leads
    whose [assigned_agent_id] or [assigned_manager_id] is that string. *)
Theorem list_leads_exact s d :
  (returned (list_leads py_repr s None) d <->
     exists x, x ∈ coll s "lead" /\ d = to_serializable py_repr x)
  /\ list_leads py_repr s (Some "") = list_leads py_repr s None
  /\ (forall a, a ≠ "" ->
        (returned (list_leads py_repr s (Some a)) d <->
           exists x, x ∈ coll s "lead"
                     /\ (field_holds x "assigned_agent_id" a
                         \/ field_holds x "assigned_manager_id" a)
                     /\ d = to_serializable py_repr x)).
Proof.
  split; [|split; [reflexivity|]].
  - unfold list_leads. rewrite returned_sorted_find.
    split; [intros (x & Hx & _ & ->); eauto | intros (x & Hx & ->); eauto].
  - intros a Ha%String.eqb_neq. unfold list_leads. rewrite Ha.
    rewrite returned_sorted_find.
    split; intros (x & Hx & Hm & ->); exists x; (split; [exact Hx|]);
      (split; [|reflexivity]).
    + cbn [matches] in Hm. apply orb_true_iff in Hm.
      destruct Hm as [Hm|Hm]; [left | right]; by apply matches_field.
    + cbn [matches]. apply orb_true_iff.
      destruct Hm as [Hm|Hm]; [left | right]; by apply matches_field.
Qed.

(** X20: the two writes of POST /api/followups are not one step: when the
    Lead's [follow_up_ids] is not a list, the append fails and the request
    ends in a server error, yet the follow-up has already been stored; the
    Lead collection is as it was. *)
Theorem create_followup_write_error s (p : FollowUp.t) (oid : ObjectId) d
    (v : Value F) :
  ObjectId_new (FollowUp.lead_id p) = Some oid ->
  find_one s "lead" (QId oid) = Some d ->
  d !! "follow_up_ids" = Some v ->
  (forall l, v ≠ VList l) ->
  exists s' fu,
    create_followup s p = (s', Unhandled "WriteError")
    /\ status_of (create_followup s p).2 = 500%nat
    /\ coll s' "followup" = coll s "followup" ++ [fu]
    /\ fu !! "lead_id" = Some (VStr (FollowUp.lead_id p))
    /\ coll s' "lead" = coll s "lead".
Proof.
  intros Hoid Hfind Hv Hnl.
  pose proof Hfind as Hm. unfold find_one in Hm. apply find_some in Hm as [_ Hm].
  assert (Hpush : forall w, op_push "follow_up_ids" w d = None).
  { intros w. unfold op_push. rewrite Hv.
    destruct v; try reflexivity. by destruct (Hnl l). }
  unfold create_followup.
  rewrite (ObjectId_new_is_valid _ _ Hoid), Hoid, Hfind. cbn [negb falsy].
  rewrite (matches_id_not_empty _ _ Hm).
  pose proof (create_document_other s "followup" "lead" (FollowUp.model_dump p)
                ltac:(discriminate)) as Hlead.
  pose proof (create_document_same s "followup" (FollowUp.model_dump p)) as Hsame.
  destruct (create_document s "followup" (FollowUp.model_dump p)) as [s1 new_id].
  cbn [fst snd] in Hlead, Hsame.
  unfold update_one.
  rewrite (update_first_error (QId oid) _ (coll s1 "lead") d);
    [|by rewrite Hlead|apply Hpush].
  eexists _, _. split; [reflexivity|]. split; [reflexivity|].
  split; [exact Hsame|]. split; [|exact Hlead].
  rewrite !lookup_insert_ne by discriminate. reflexivity.
Qed.

End Lists.

(** ** The further properties at concrete requests *)

Lemma create_followup_then_list_witness :
  exists new_id d,
    (VDict (list_to_map [("id", VStr "000000000000000000000002")]) : Value Q)
      = VDict (list_to_map [("id", VStr new_id)])
    /\ returned (list_followups no_repr
                   (create_followup one_lead_db (call_about id_1)).1 id_1) d
    /\ d !! "id" = Some (VStr new_id)
    /\ d !! "_id" = None
    /\ d !! "lead_id" = Some (VStr id_1)
    /\ d !! "notes" = Some (VStr "called back")
    /\ d !! "type" = Some (VStr "call").
Proof.
  apply (create_followup_then_list no_repr one_lead_db
           (create_followup one_lead_db (call_about id_1)).1 (call_about id_1)
           (VDict (list_to_map [("id", VStr "000000000000000000000002")]))).
  vm_compute. reflexivity.
Defined.

Lemma create_quote_then_list_witness :
  exists new_id d,
    Ok (VDict (list_to_map
                 [("id", VStr id_1); ("total", VFloat 2011900%float)]))
      = Ok (VDict (list_to_map
                     [("id", VStr new_id);
                      ("total", VFloat (q_total (compute_quote example_inputs)))]))
    /\ ffinite (q_total (compute_quote example_inputs)) = true
    /\ returned (quotes_by_lead no_repr
                   (create_quote empty_db (quote_for id_0)).1 id_0) d
    /\ d !! "id" = Some (VStr new_id)
    /\ d !! "generated_price"
       = Some (VFloat (q_total (compute_quote example_inputs)))
    /\ d !! "pricing_inputs" = Some (VDict (QuotationInputs_dump example_inputs))
    /\ d !! "pdf_url" = Some VNone.
Proof.
  apply (create_quote_then_list no_repr empty_db
           (create_quote empty_db (quote_for id_0)).1 (quote_for id_0)
           (Ok (VDict (list_to_map
                         [("id", VStr id_1); ("total", VFloat 2011900%float)]))));
    vm_compute; reflexivity.
Defined.

Lemma update_lead_then_list_assigned_witness :
  exists j,
    returned (list_leads no_repr (update_lead one_lead_db id_1 agent_update).1
                (Some "agent-7")) j
    /\ j !! "id" = Some (VStr (oid_str 1%N))
    /\ (j !! "assigned_agent_id" = Some (VStr "agent-7")
        \/ j !! "assigned_manager_id" = Some (VStr "agent-7")).
Proof.
  apply (update_lead_then_list_assigned no_repr one_lead_db id_1 agent_update
           1%N asha_doc "agent-7");
    [reflexivity | vm_compute; reflexivity | discriminate | left; reflexivity].
Defined.

Lemma serve_writes_manifest_collections_witness :
  coll (serve no_repr one_lead_db (WithId (PostFollowup (call_about id_1)))).1 "user"
    = coll one_lead_db "user".
Proof.
  apply (serve_writes_manifest_collections no_repr one_lead_db
           (WithId (PostFollowup (call_about id_1))) "user").
  right. reflexivity.
Defined.

Lemma lead_requests_never_fail_witness :
  status_of (handle no_repr one_lead_db (PostFollowup (call_about id_1))).2 = 200%nat
  \/ status_of (handle no_repr one_lead_db (PostFollowup (call_about id_1))).2 = 400%nat
  \/ status_of (handle no_repr one_lead_db (PostFollowup (call_about id_1))).2 = 404%nat.
Proof.
  apply (lead_requests_never_fail no_repr one_lead_db (PostFollowup (call_about id_1))).
  - exact one_lead_db_reachable.
  - intros p. discriminate.
  - intros i. discriminate.
  - reflexivity.
Defined.

Lemma create_lead_then_followup_witness :
  exists s1 s2 fid d2 fu,
    create_lead (F := Q) empty_db asha
      = (s1, Ok (VDict (list_to_map
                   [("id", VStr (FollowUp.lead_id (call_about id_1)));
                    ("status", VStr "New")])))
    /\ create_followup s1 (call_about id_1)
       = (s2, Ok (VDict (list_to_map [("id", VStr fid)])))
    /\ status_of (create_followup s1 (call_about id_1)).2 = 200%nat
    /\ coll s2 "followup" = coll (F := Q) empty_db "followup" ++ [fu]
    /\ fid = oid_str (next_oid (F := Q) empty_db + 1)%N
    /\ fu !! "_id" = Some (VOid (next_oid (F := Q) empty_db + 1)%N)
    /\ fu !! "lead_id" = Some (VStr (FollowUp.lead_id (call_about id_1)))
    /\ fu !! "notes" = Some (VStr (FollowUp.notes (call_about id_1)))
    /\ fu !! "type" = Some (VStr (FollowUp.type (call_about id_1)))
    /\ find_one s2 "lead" (QId (next_oid (F := Q) empty_db)) = Some d2
    /\ d2 !! "follow_up_ids" = Some (VList [VStr fid])
    /\ d2 !! "name" = Some (VStr (LeadRequest.name asha))
    /\ fid ≠ FollowUp.lead_id (call_about id_1).
Proof.
  apply (create_lead_then_followup no_repr empty_db asha (call_about id_1)).
  - apply reachable_empty. reflexivity.
  - reflexivity.
  - reflexivity.
Defined.



Lemma create_followup_write_error_witness :
  exists s' fu,
    create_followup legacy_db (call_about id_1) = (s', Unhandled "WriteError")
    /\ status_of (create_followup legacy_db (call_about id_1)).2 = 500%nat
    /\ coll s' "followup" = coll legacy_db "followup" ++ [fu]
    /\ fu !! "lead_id" = Some (VStr (FollowUp.lead_id (call_about id_1)))
    /\ coll s' "lead" = coll legacy_db "lead".
Proof.
  apply (create_followup_write_error legacy_db (call_about id_1) 1%N legacy_lead
           (VStr "none"));
    [reflexivity | vm_compute; reflexivity | reflexivity | intros l; discriminate].
Defined.
